(** * lmpp [run.py]: the likeligrid sweep driver

    A shallow embedding of [run.py] (the argument generator [iter_args],
    the two pathway counters and the tp53 pair lookup) together with the
    properties of its natural-language specification.

    Conventions of the embedding.
    - A Python [str] is a [string]; a character is an [ascii], read as a
      code point below 256.
    - A Python exception is a constructor of [exn]; a call that may raise
      returns a [result].
    - A generator is the list of the items it yields followed by the way it
      ends ([gen]): the items yielded before an exception stay visible, as
      they are to the consumer of a lazy Python generator.
    - [gzip.open], [json.load] and the [wtl.options] helpers belong to
      libraries outside of this repository. The first two are the
      parameters [gzip_open_rt] and [gzip_json_load] of section [Run];
      [wopt.make_args] is the parameter [make_args]. *)

From Stdlib Require Import ZArith Ascii String DecimalString.
From Stdlib Require DecimalPos DecimalZ.
From stdpp Require Import base decidable option list strings gmap sorting.

(** ** Exceptions and results *)

(** The built-in exceptions that the code of [run.py] can raise, and
    [OSError] for whatever the file layer reports. *)
Inductive exn : Set :=
  | UnboundLocalError
  | IndexError
  | KeyError
  | TypeError
  | ValueError
  | AttributeError
  | OSError.

#[global] Instance exn_eq_dec : EqDecision exn.
Proof. solve_decision. Defined.

Inductive result (A : Type) : Type :=
  | Ok (a : A)
  | Raise (e : exn).
Arguments Ok {A} a.
Arguments Raise {A} e.

#[global] Instance result_ret : MRet result := λ A a, Ok a.
#[global] Instance result_bind : MBind result := λ A B k r,
  match r with
  | Ok a => k a
  | Raise e => Raise e
  end.

(** ** Generators

    A job is one argument list. Running a generator to its end gives the
    jobs it yields, in order, and then either a normal end or the exception
    that stops it. *)
Definition job : Type := list string.

Record gen (A : Type) : Type := Gen { yielded : list job; outcome : result A }.
Arguments Gen {A} yielded outcome.
Arguments yielded {A} g.
Arguments outcome {A} g.

#[global] Instance gen_ret : MRet gen := λ A a, Gen [] (Ok a).
#[global] Instance gen_bind : MBind gen := λ A B k g,
  match outcome g with
  | Ok a => Gen (yielded g ++ yielded (k a)) (outcome (k a))
  | Raise e => Gen (yielded g) (Raise e)
  end.

(** [yield j] *)
Definition yield (j : job) : gen unit := Gen [j] (Ok tt).

(** A call that may raise, made from inside a generator. *)
Definition call {A} (r : result A) : gen A := Gen [] r.

(** [for x in xs: body(x)] inside a generator. *)
Fixpoint for_each {X} (xs : list X) (body : X → gen unit) : gen unit :=
  match xs with
  | [] => mret tt
  | x :: xs' => body x ;; for_each xs' body
  end.

(** ** Decoded JSON documents

    What [json.load] returns: [None], [bool], [int], [float], [str],
    [list] and [dict] with [str] keys. The payload of a [float] is never
    inspected by [run.py]; it is kept as the bit pattern of the double. *)
#[warnings="-register-all"]
Inductive json : Type :=
  | JNull
  | JBool (b : bool)
  | JInt (n : Z)
  | JFloat (bits : Z)
  | JStr (s : string)
  | JList (l : list json)
  | JDict (m : gmap string json).

(** ** Python [str] operations used by [run.py] *)

Definition tab : ascii := Ascii.ascii_of_nat 9.
Definition newline : ascii := Ascii.ascii_of_nat 10.

(** [str.isspace] on one character (code points below 256): the ASCII
    controls 9-13 and 28-31, the space, NEL (133) and NBSP (160). *)
Definition isspace (c : ascii) : bool :=
  let n := Ascii.nat_of_ascii c in
  ((9 <=? n) && (n <=? 13) || (28 <=? n) && (n <=? 32)
   || (n =? 133) || (n =? 160))%nat.

(** [s.startswith(p)] *)
Definition startswith (p s : string) : bool := String.prefix p s.

(** [s.rstrip()]: drop the trailing run of whitespace. *)
Fixpoint rstrip (s : string) : string :=
  match s with
  | EmptyString => EmptyString
  | String c s' =>
      match rstrip s' with
      | EmptyString => if isspace c then EmptyString else String c EmptyString
      | r => String c r
      end
  end.

(** [s.split(sep)] for a one-character separator: never empty. *)
Fixpoint split (sep : ascii) (s : string) : list string :=
  match s with
  | EmptyString => [EmptyString]
  | String c s' =>
      if Ascii.eqb c sep then EmptyString :: split sep s'
      else match split sep s' with
           | [] => [String c EmptyString]
           | w :: ws => String c w :: ws
           end
  end.

(** [sub in s] on strings: substring search. *)
Fixpoint str_contains (sub s : string) : bool :=
  String.prefix sub s
  || match s with
     | EmptyString => false
     | String _ s' => str_contains sub s'
     end.

(** Position of the first occurrence of [sub] in [s], as [s.index(sub)]
    finds it; [None] where [index] raises. *)
Fixpoint str_find (sub s : string) : option nat :=
  if String.prefix sub s then Some 0
  else match s with
       | EmptyString => None
       | String _ s' => S <$> str_find sub s'
       end.

(** [str(n)] for an [int]. *)
Definition str_of_Z (n : Z) : string := NilZero.string_of_int (Z.to_int n).
Definition str_of_nat (n : nat) : string := str_of_Z (Z.of_nat n).

(** ** Python [list] operations used by [run.py] *)

(** [l.pop(0)]: the list that is left; [IndexError] on an empty list. *)
Definition pop_first {A} (l : list A) : result (list A) :=
  match l with
  | [] => Raise IndexError
  | _ :: l' => Ok l'
  end.

(** [l[-1]] *)
Definition get_last {A} (l : list A) : result A :=
  match last l with
  | Some x => Ok x
  | None => Raise IndexError
  end.

(** [l.pop(-1)]: the list that is left. *)
Definition pop_last {A} (l : list A) : result (list A) :=
  match l with
  | [] => Raise IndexError
  | _ => Ok (removelast l)
  end.

(** [x == 'name'] for a decoded JSON value [x]: only an equal [str]. *)
Definition json_eq_str (name : string) (x : json) : bool :=
  match x with
  | JStr s => String.eqb s name
  | _ => false
  end.

(** Position of the first element of [l] equal to the string [name]. *)
Fixpoint list_find_str (name : string) (l : list json) : option nat :=
  match l with
  | [] => None
  | x :: l' => if json_eq_str name x then Some 0 else S <$> list_find_str name l'
  end.

(** [p.index(name)] where [p] is any decoded JSON value. *)
Definition py_index (p : json) (name : string) : result nat :=
  match p with
  | JList l =>
      match list_find_str name l with Some i => Ok i | None => Raise ValueError end
  | JStr s =>
      match str_find name s with Some i => Ok i | None => Raise ValueError end
  | _ => Raise AttributeError
  end.

(** [d[key]] with a [str] key, where [d] is any decoded JSON value. *)
Definition py_getitem (d : json) (key : string) : result json :=
  match d with
  | JDict m =>
      match m !! key with Some v => Ok v | None => Raise KeyError end
  | _ => Raise TypeError
  end.

(** [len(x)] where [x] is any decoded JSON value. *)
Definition py_len (x : json) : result nat :=
  match x with
  | JList l => Ok (length l)
  | JStr s => Ok (String.length s)
  | JDict m => Ok (size m)
  | _ => Raise TypeError
  end.

(** [range(n)] and [range(b, e)] *)
Definition range (n : nat) : list nat := seq 0 n.
Definition range_Z (b e : Z) : list Z :=
  map (λ i, (b + Z.of_nat i)%Z) (seq 0 (Z.to_nat (e - b))).

(** [itertools.combinations(l, r)]: the [r]-element subsequences of [l],
    in lexicographic order of their positions. *)
Fixpoint combinations {A} (l : list A) (r : nat) : list (list A) :=
  match r, l with
  | 0, _ => [[]]
  | S _, [] => []
  | S r', x :: l' => map (cons x) (combinations l' r') ++ combinations l' r
  end.

(** ** The program *)

(** [program = 'likeligrid'] *)
Definition program : string := "likeligrid".

(** ['-e {} {}'.format] applied to the unpacked sequence [x]: its first two
    items fill the two fields; with fewer than two items [format] raises
    [IndexError]. *)
Definition format_e (x : list nat) : result string :=
  match x with
  | i :: j :: _ => Ok ("-e " +:+ str_of_nat i +:+ " " +:+ str_of_nat j)
  | _ => Raise IndexError
  end.

(** A 2-tuple as the sequence that [*pair] unpacks. *)
Definition tuple2 (pair : nat * nat) : list nat := [pair.1; pair.2].

(** Modelled from the spec: [wopt.sequential], of the [wtl] library, is not
    part of this repository. The spec has the outer loop run over each value
    of the sweep range in the order of the range, one axis value per
    iteration; so [sequential] yields, for each axis in order and each of its
    values in order, the one-entry dictionary from the axis name to the
    value. *)
Definition sequential (axes : list (string * list Z)) : list (list (string * Z)) :=
  flat_map (λ '(key, vals), map (λ value, [(key, value)]) vals) axes.

(** The loop of [count_pathways_tsv]: [header] as it is bound when the loop
    ends, [None] when no line binds it. *)
Fixpoint tsv_header (lines : list string) : option (list string) :=
  match lines with
  | [] => None
  | line :: lines' =>
      if startswith "#" line then tsv_header lines'
      else Some (split tab (rstrip line))
  end.

(** [count_pathways_tsv] after the [with] block, lines 43-46. Reading the
    unbound local [header] raises [UnboundLocalError]. *)
Definition count_header (header : option (list string)) : result nat :=
  match header with
  | None => Raise UnboundLocalError
  | Some header =>
      header ← pop_first header;
      last_field ← get_last header;
      if str_contains ":" last_field
      then header ← pop_last header; Ok (length header)
      else Ok (length header)
  end.

(** [count_pathways_tsv] on the lines of the opened file. *)
Definition count_pathways_tsv_lines (lines : list string) : result nat :=
  count_header (tsv_header lines).

(** [count_pathways_json] on the decoded document. *)
Definition count_pathways_json_doc (d : json) : result nat :=
  p ← py_getitem d "pathway"; py_len p.

(** [tp53_pleiotropic_pair] on the decoded document. The tuple is built
    left to right: ["Cycle"] is looked up first. *)
Definition tp53_pleiotropic_pair_doc (d : json) : result (nat * nat) :=
  p ← py_getitem d "pathway";
  i ← py_index p "Cycle";
  j ← py_index p "Damage";
  Ok (i, j).

Section Run.
(** [gzip.open(infile, 'rt')] as the lines that iterating over the file
    gives (each with its line end), and [json.load(gzip.open(infile, 'r'))]
    as the decoded document; either may raise what the file layer or the
    decoder raises. The files do not change while the generator runs. *)
Variable gzip_open_rt : string → result (list string).
Variable gzip_json_load : string → result json.
(** [wopt.make_args]: the flags for one dictionary of axis values. *)
Variable make_args : list (string * Z) → list string.

Definition count_pathways_tsv (infile : string) : result nat :=
  lines ← gzip_open_rt infile; count_pathways_tsv_lines lines.

Definition count_pathways_json (infile : string) : result nat :=
  d ← gzip_json_load infile; count_pathways_json_doc d.

Definition tp53_pleiotropic_pair (infile : string) : result (nat * nat) :=
  d ← gzip_json_load infile; tp53_pleiotropic_pair_doc d.

(** [const], line 15. *)
Definition const_args (concurrency : Z) (rest : list string) : list string :=
  [program; "-j" +:+ str_of_Z concurrency] ++ rest.

(** [npath], lines 22-25. *)
Definition epistasis_npath (const : list string) (f : string) : result nat :=
  if bool_decide ("-g" ∈ const) then count_pathways_tsv f
  else count_pathways_json f.

(** The body of [for f in infiles], lines 21-32. *)
Definition iter_file (const args : list string) (epistasis tp53 : bool)
    (f : string) : gen unit :=
  if epistasis then
    npath ← call (epistasis_npath const f);
    for_each (combinations (range npath) 2) (λ x,
      flag ← call (format_e x);
      yield (const ++ [flag] ++ args ++ [f]))
  else if tp53 then
    pair ← call (tp53_pleiotropic_pair f);
    flag ← call (format_e (tuple2 pair));
    yield (const ++ [flag] ++ args ++ [f])
  else
    yield (const ++ args ++ [f]).

Definition iter_args (infiles : list string) (range_s : list Z)
    (concurrency : Z) (rest : list string) (epistasis tp53 : bool) : gen unit :=
  let const := const_args concurrency rest in
  let axes := [("s", range_s)] in
  for_each (sequential axes) (λ v,
    let args := make_args v in
    for_each infiles (iter_file const args epistasis tp53)).

End Run.

(** The parsed command line, as [argparse] gives it to [main]: the options
    [-n], [-j], [--begin], [--end], [-e], [--tp53] and the positional
    [infile]. *)
Record cli_args : Type := CliArgs {
  cli_dry_run : bool;
  cli_jobs : Z;
  cli_begin : Z;
  cli_end : Z;
  cli_epistasis : bool;
  cli_tp53 : bool;
  cli_infile : list string
}.

(** [main], lines 76-78: the generator [it] that [main] hands to
    [wopt.map_async], from the parsed options [args] and the arguments
    [rest] that the parser did not know. *)
Definition main_it (gzip_open_rt : string → result (list string))
    (gzip_json_load : string → result json)
    (make_args : list (string * Z) → list string)
    (args : cli_args) (rest : list string) : gen unit :=
  let range_s := range_Z (cli_begin args) (cli_end args) in
  iter_args gzip_open_rt gzip_json_load make_args
    (cli_infile args) range_s (cli_jobs args) rest
    (cli_epistasis args) (cli_tp53 args).

(** ** Orders and measures used in the statements *)

(** [sep.join(fields)] *)
Fixpoint join (sep : string) (fields : list string) : string :=
  match fields with
  | [] => ""
  | x :: fields' =>
      match fields' with
      | [] => x
      | _ => x +:+ sep +:+ join sep fields'
      end
  end.

Definition join_tab (fields : list string) : string := join (String tab "") fields.

(** [s] is empty or made of whitespace only: [s.strip() == '']. *)
Fixpoint all_space (s : string) : bool :=
  match s with
  | EmptyString => true
  | String c s' => isspace c && all_space s'
  end.

(** [c in s] for one character [c]. *)
Definition has_char (c : ascii) (s : string) : bool := str_contains (String c "") s.

(** A comment line of the TSV format. *)
Definition is_comment (line : string) : Prop := startswith "#" line = true.

(** [i] is the position of the first item of [l] that is the string [name]. *)
Definition is_first_index (l : list json) (name : string) (i : nat) : Prop :=
  l !! i = Some (JStr name) ∧ ∀ k, k < i → l !! k ≠ Some (JStr name).


(** The decoded values without a length: [None], [bool], [int], [float]. *)
Definition json_scalar (x : json) : Prop :=
  match x with
  | JNull | JBool _ | JInt _ | JFloat _ => True
  | _ => False
  end.

(** The number of jobs that one input file contributes for one sweep value,
    when the pair selection of the mode succeeds on the file: the number of
    pairs in epistasis mode, one job in tp53 mode and without a mode. *)
Definition jobs_per_file (gzip_open_rt : string → result (list string))
    (gzip_json_load : string → result json)
    (const : list string) (epistasis tp53 : bool) (f : string) : result nat :=
  if epistasis then
    npath ← epistasis_npath gzip_open_rt gzip_json_load const f;
    Ok (length (combinations (range npath) 2))
  else if tp53 then
    _ ← tp53_pleiotropic_pair gzip_json_load f; Ok 1
  else Ok 1.

(** The jobs of one input file for one sweep value in epistasis mode, as
    two nested loops: [i] over the pathway indices in ascending order and,
    for each [i], [j] over the indices above [i] in ascending order. *)
Definition epistasis_jobs (const args : list string) (f : string)
    (npath : nat) : list job :=
  flat_map (λ i,
    map (λ j, const ++ ["-e " +:+ str_of_nat i +:+ " " +:+ str_of_nat j]
              ++ args ++ [f])
        (seq (S i) (npath - S i)))
    (seq 0 npath).

(** Lexicographic order on index pairs. *)
Definition pair_lex_lt (p q : nat * nat) : Prop :=
  p.1 < q.1 ∨ (p.1 = q.1 ∧ p.2 < q.2).

(** Lexicographic order on index tuples. *)
Fixpoint lex_lt (x y : list nat) : Prop :=
  match x, y with
  | [], _ :: _ => True
  | a :: x', b :: y' => a < b ∨ (a = b ∧ lex_lt x' y')
  | _, _ => False
  end.

(** ** A small installation, for concrete runs

    Result files in the TSV format (with and without the annotation
    column, one whose header has the log-likelihood column only, one made
    of comments), two genotype files in the JSON format, and a [make_args]
    that writes [--key=value]. *)
Module Example.
Definition eol : string := String newline "".

Definition result_lines : list string :=
  [ "# likeligrid" +:+ eol;
    join_tab ["loglik"; "Cycle"; "Damage"; "Growth"; "Cycle:Damage"] +:+ eol;
    join_tab ["-12.5"; "1.0"; "1.0"; "1.0"; "1.0"] +:+ eol ].

Definition plain_lines : list string :=
  [ join_tab ["loglik"; "Cycle"; "Damage"] +:+ eol ].

Definition loglik_only_lines : list string :=
  [ "# likeligrid" +:+ eol; "loglik" +:+ eol ].

Definition comment_lines : list string :=
  [ "# likeligrid" +:+ eol; "# no header" +:+ eol ].

Definition genotype : json :=
  JDict {[ "pathway" := JList [JStr "Damage"; JStr "Growth"; JStr "Cycle"] ]}.

Definition genotype_no_cycle : json :=
  JDict {[ "pathway" := JList [JStr "Damage"; JStr "Growth"] ]}.

Definition open_rt (f : string) : result (list string) :=
  if decide (f = "result.tsv.gz") then Ok result_lines
  else if decide (f = "plain.tsv.gz") then Ok plain_lines
  else if decide (f = "loglik.tsv.gz") then Ok loglik_only_lines
  else if decide (f = "comments.tsv.gz") then Ok comment_lines
  else Raise OSError.

Definition json_load (f : string) : result json :=
  if decide (f = "genotype.json.gz") then Ok genotype
  else if decide (f = "nocycle.json.gz") then Ok genotype_no_cycle
  else Raise OSError.

Definition make_args (v : list (string * Z)) : list string :=
  map (λ '(key, value), "--" +:+ key +:+ "=" +:+ str_of_Z value) v.
End Example.

(** * Facts about the library operations *)

Section Combinations.
Context {A : Type}.
Implicit Types (l : list A) (x y : A).

Lemma combinations_1 l : combinations l 1 = map (λ x, [x]) l.
Proof.
  induction l as [|x l IH]; [done|].
  cbn [combinations map app]. by rewrite IH; destruct l.
Qed.

Lemma combinations_2_cons x l :
  combinations (x :: l) 2 = map (λ y, [x; y]) l ++ combinations l 2.
Proof.
  change (combinations (x :: l) 2)
    with (map (cons x) (combinations l 1) ++ combinations l 2).
  by rewrite combinations_1, map_map.
Qed.

Lemma combinations_2_double_length l :
  2 * length (combinations l 2) = length l * (length l - 1).
Proof.
  induction l as [|x l IH]; [done|].
  rewrite combinations_2_cons, length_app, length_map. cbn [length]. nia.
Qed.

Lemma combinations_2_length l :
  length (combinations l 2) = length l * (length l - 1) / 2.
Proof.
  rewrite <- combinations_2_double_length, Nat.mul_comm.
  by rewrite Nat.div_mul.
Qed.

Lemma combinations_2_short l : length l < 2 → combinations l 2 = [].
Proof. destruct l as [|x [|y l]]; cbn; [done|done|lia]. Qed.
End Combinations.

Lemma elem_of_combinations_2_seq (a n : nat) (x : list nat) :
  x ∈ combinations (seq a n) 2 ↔ ∃ i j, x = [i; j] ∧ a ≤ i ∧ i < j ∧ j < a + n.
Proof.
  revert a. induction n as [|n IH]; intros a.
  - cbn. split; [by intros ?%elem_of_nil|]. intros (i & j & _ & ?). lia.
  - cbn [seq]. rewrite combinations_2_cons, elem_of_app, list_elem_of_fmap, IH.
    split.
    + intros [(j & -> & Hj%elem_of_seq)|(i & j & -> & ?)].
      * exists a, j. split; [done|lia].
      * exists i, j. split; [done|lia].
    + intros (i & j & -> & Hi & Hij & Hj).
      destruct (decide (i = a)) as [->|Hne].
      * left. exists j. split; [done|]. apply elem_of_seq. lia.
      * right. exists i, j. split; [done|lia].
Qed.

Lemma lex_lt_irrefl (x : list nat) : ¬ lex_lt x x.
Proof. induction x as [|a x IH]; cbn; [tauto|]. intros [?|[_ ?]]; [lia|tauto]. Qed.

Lemma combinations_2_seq_sorted (a n : nat) :
  StronglySorted lex_lt (combinations (seq a n) 2).
Proof.
  revert a. induction n as [|n IH]; intros a; [constructor|].
  cbn [seq]. rewrite combinations_2_cons. apply StronglySorted_app_2.
  - intros x1 x2 (j & -> & _)%list_elem_of_fmap
      (i' & j' & -> & ? & _)%elem_of_combinations_2_seq.
    cbn. lia.
  - generalize (S a) as b. clear IH. induction n as [|n IH]; intros b.
    + constructor.
    + cbn [seq map]. constructor; [apply IH|].
      apply Forall_forall. intros x (j & -> & Hj%elem_of_seq)%list_elem_of_fmap.
      cbn. lia.
  - apply IH.
Qed.

Lemma StronglySorted_irrefl_NoDup {A} (R : relation A) (l : list A) :
  (∀ x, ¬ R x x) → StronglySorted R l → NoDup l.
Proof.
  intros Hirr. induction 1 as [|x l _ IH Hall]; constructor; [|done].
  intros Hin. rewrite Forall_forall in Hall. by apply (Hirr x), Hall.
Qed.

Section Strings.
Implicit Types (s t : string) (c d : ascii).
Local Arguments Ascii.eqb : simpl never.

Lemma prefix_empty s : String.prefix "" s = true.
Proof. by destruct s. Qed.

Lemma string_app_cons c s t : String c s +:+ t = String c (s +:+ t).
Proof. done. Qed.

Lemma string_app_assoc s t u : (s +:+ t) +:+ u = s +:+ (t +:+ u).
Proof. induction s as [|c s IH]; [done|]. by rewrite !string_app_cons, IH. Qed.

Lemma has_char_cons c d s :
  has_char c (String d s) = bool_decide (c = d) || has_char c s.
Proof.
  unfold has_char. cbn. destruct (ascii_dec c d) as [->|Hne].
  - by rewrite prefix_empty, bool_decide_eq_true_2.
  - by rewrite bool_decide_eq_false_2.
Qed.

Lemma has_char_empty c : has_char c "" = false.
Proof. done. Qed.

Lemma has_char_app c s t : has_char c (s +:+ t) = has_char c s || has_char c t.
Proof.
  induction s as [|d s IH]; [done|].
  change (String d s +:+ t) with (String d (s +:+ t)).
  by rewrite !has_char_cons, IH, orb_assoc.
Qed.

Lemma rstrip_empty_iff s : rstrip s = "" ↔ all_space s = true.
Proof.
  induction s as [|c s IH]; [done|]. cbn.
  destruct (rstrip s) eqn:Hr.
  - destruct IH as [-> _]; [|done]. rewrite andb_true_r. by destruct (isspace c).
  - split; [done|]. intros [_ Hs]%andb_true_iff. by apply IH in Hs.
Qed.

Lemma rstrip_nonempty s : all_space s = false → rstrip s ≠ "".
Proof. intros Hs Hr%rstrip_empty_iff. congruence. Qed.

Lemma rstrip_app_space s t : all_space t = true → rstrip (s +:+ t) = rstrip s.
Proof.
  intros Ht. induction s as [|c s IH]; simpl.
  - by apply rstrip_empty_iff.
  - by rewrite IH.
Qed.

Lemma rstrip_app_keep s t : rstrip t ≠ "" → rstrip (s +:+ t) = s +:+ rstrip t.
Proof.
  intros Ht. induction s as [|c s IH]; simpl; [done|].
  rewrite IH. by destruct s, (rstrip t).
Qed.

Lemma has_char_rstrip_1 c s : has_char c (rstrip s) = true → has_char c s = true.
Proof.
  induction s as [|d s IH]; [done|]. cbn [rstrip]. rewrite has_char_cons.
  destruct (rstrip s) eqn:Hr.
  - destruct (isspace d); [done|].
    rewrite has_char_cons, has_char_empty, orb_false_r. by intros ->.
  - rewrite has_char_cons. intros [->|?]%orb_true_iff; [done|].
    rewrite IH; [apply orb_true_r|done].
Qed.

Lemma has_char_rstrip_2 c s :
  isspace c = false → has_char c s = true → has_char c (rstrip s) = true.
Proof.
  intros Hc. induction s as [|d s IH]; [done|]. cbn [rstrip].
  rewrite has_char_cons. intros [Hd%bool_decide_eq_true|Hs]%orb_true_iff.
  - subst d. destruct (rstrip s); rewrite ?Hc, has_char_cons;
      by rewrite bool_decide_eq_true_2.
  - specialize (IH Hs). destruct (rstrip s); [done|].
    rewrite has_char_cons, IH. apply orb_true_r.
Qed.

Lemma has_char_rstrip_false c s : has_char c s = false → has_char c (rstrip s) = false.
Proof.
  intros Hs. destruct (has_char c (rstrip s)) eqn:Hr; [|done].
  apply has_char_rstrip_1 in Hr. congruence.
Qed.

Lemma split_no_sep c s : has_char c s = false → split c s = [s].
Proof.
  induction s as [|d s IH]; [done|]. rewrite has_char_cons.
  intros [Hd%bool_decide_eq_false Hs]%orb_false_iff. cbn.
  destruct (Ascii.eqb_spec d c) as [->|_]; [done|]. by rewrite IH.
Qed.

Lemma split_app_sep c s t :
  has_char c s = false → split c (s +:+ String c t) = s :: split c t.
Proof.
  induction s as [|d s IH].
  - intros _. change ("" +:+ String c t) with (String c t).
    cbn [split]. by rewrite Ascii.eqb_refl.
  - change (String d s +:+ String c t) with (String d (s +:+ String c t)).
    rewrite has_char_cons.
    intros [Hd%bool_decide_eq_false Hs]%orb_false_iff. cbn.
    destruct (Ascii.eqb_spec d c) as [->|_]; [done|]. by rewrite IH.
Qed.

Lemma split_join_tab (fields : list string) :
  fields ≠ [] → Forall (λ x, has_char tab x = false) fields →
  split tab (join_tab fields) = fields.
Proof.
  intros Hne Hall. induction Hall as [|x fields Hx Hall IH]; [done|].
  unfold join_tab in *. cbn [join]. destruct fields as [|y fields].
  - by apply split_no_sep.
  - change (String tab "" +:+ ?r) with (String tab r).
    rewrite split_app_sep by done. by rewrite IH.
Qed.

Lemma join_tab_snoc (fields : list string) (x : string) :
  join_tab (fields ++ [x]) = foldr (λ y acc, y +:+ String tab acc) "" fields +:+ x.
Proof.
  unfold join_tab. induction fields as [|y fields IH]; [done|].
  cbn [app join foldr]. rewrite IH.
  destruct (fields ++ [x]) eqn:Heq; [by destruct fields|].
  by rewrite !string_app_assoc.
Qed.

Lemma startswith_app_nonempty p c s t :
  startswith (String p "") (String c s +:+ t) = startswith (String p "") (String c s).
Proof.
  unfold startswith. rewrite string_app_cons. cbn.
  destruct (ascii_dec p c); by rewrite ?prefix_empty.
Qed.

Lemma startswith_all_space p t :
  isspace p = false → all_space t = true → startswith (String p "") t = false.
Proof.
  intros Hp Ht. destruct t as [|c t]; [done|]. unfold startswith. cbn.
  destruct (ascii_dec p c) as [->|]; [|done].
  apply andb_true_iff in Ht as [Hc _]. congruence.
Qed.
End Strings.

Section Generators.
Context {X : Type}.
Implicit Types (xs : list X) (body : X → gen unit).

Lemma gen_bind_ok {A B} (js : list job) (a : A) (k : A → gen B) :
  Gen js (Ok a) ≫= k = Gen (js ++ yielded (k a)) (outcome (k a)).
Proof. done. Qed.

Lemma gen_bind_raise {A B} (js : list job) (e : exn) (k : A → gen B) :
  Gen js (Raise e) ≫= k = Gen js (Raise e).
Proof. done. Qed.

Lemma call_ok {A B} (a : A) (k : A → gen B) : call (Ok a) ≫= k = k a.
Proof. unfold call. rewrite gen_bind_ok. by destruct (k a). Qed.

(** A loop whose every iteration ends normally yields the iterations'
    jobs one after the other and ends normally. *)
Lemma for_each_ok xs body (js : X → list job) :
  (∀ x, x ∈ xs → body x = Gen (js x) (Ok tt)) →
  for_each xs body = Gen (concat (map js xs)) (Ok tt).
Proof.
  induction xs as [|x xs IH]; intros Hbody; [done|].
  cbn [for_each map concat].
  rewrite (Hbody x) by apply list_elem_of_here.
  rewrite gen_bind_ok, IH; [done|].
  intros y Hy. apply Hbody. by apply list_elem_of_further.
Qed.
End Generators.

Section Loops.
Context {X : Type}.
Implicit Types (xs : list X) (body : X → gen unit).

Lemma gen_bind_outcome_ok {A B} (g : gen A) (a : A) (k : A → gen B) :
  outcome g = Ok a → g ≫= k = Gen (yielded g ++ yielded (k a)) (outcome (k a)).
Proof. intros Hg. unfold mbind, gen_bind. by rewrite Hg. Qed.

(** The number of jobs of a loop whose iterations end normally. *)
Lemma for_each_length xs body (counts : list nat) :
  Forall2 (λ x n, outcome (body x) = Ok tt ∧ length (yielded (body x)) = n)
    xs counts →
  outcome (for_each xs body) = Ok tt
  ∧ length (yielded (for_each xs body)) = sum_list counts.
Proof.
  induction 1 as [|x n xs counts [Hout Hlen] _ [IHout IHlen]]; [done|].
  cbn [for_each sum_list]. rewrite (gen_bind_outcome_ok _ _ _ Hout). cbn.
  by rewrite length_app, Hlen, IHlen.
Qed.

Lemma for_each_length_const xs body (n : nat) :
  (∀ x, x ∈ xs → outcome (body x) = Ok tt ∧ length (yielded (body x)) = n) →
  outcome (for_each xs body) = Ok tt
  ∧ length (yielded (for_each xs body)) = length xs * n.
Proof.
  intros Hbody.
  destruct (for_each_length xs body (replicate (length xs) n)) as [Hout Hlen].
  - clear -Hbody. induction xs as [|x xs IH]; constructor.
    + apply Hbody, list_elem_of_here.
    + apply IH. intros y Hy. by apply Hbody, list_elem_of_further.
  - split; [done|]. rewrite Hlen. clear.
    induction xs as [|x xs IH]; cbn; [done|by rewrite IH].
Qed.

Lemma concat_map_singleton {Y} (g : X → Y) xs : concat (map (λ x, [g x]) xs) = map g xs.
Proof. induction xs as [|x xs IH]; cbn; [done|by rewrite IH]. Qed.

Lemma length_concat_map_const {Y} (g : X → list Y) xs (n : nat) :
  (∀ x, length (g x) = n) → length (concat (map g xs)) = length xs * n.
Proof.
  intros Hg. induction xs as [|x xs IH]; cbn; [done|].
  by rewrite length_app, Hg, IH.
Qed.
End Loops.

Section Sweep.
Lemma sequential_single (key : string) (vals : list Z) :
  sequential [(key, vals)] = map (λ value, [(key, value)]) vals.
Proof. unfold sequential. cbn. apply app_nil_r. Qed.

Lemma length_range_Z (b e : Z) : length (range_Z b e) = Z.to_nat (e - b).
Proof. unfold range_Z. by rewrite length_map, length_seq. Qed.

Lemma range_Z_ascending (b e : Z) : StronglySorted Z.lt (range_Z b e).
Proof.
  unfold range_Z. generalize (Z.to_nat (e - b)) as n. generalize 0 as a.
  intros a n. revert a. induction n as [|n IH]; intros a; cbn; constructor.
  - apply IH.
  - apply Forall_forall. intros z (i & -> & Hi%elem_of_seq)%list_elem_of_fmap. lia.
Qed.

Lemma combinations_2_shape {A} (l : list A) (x : list A) :
  x ∈ combinations l 2 → ∃ a b, x = [a; b].
Proof.
  induction l as [|a l IH]; [by intros ?%elem_of_nil|].
  rewrite combinations_2_cons, elem_of_app, list_elem_of_fmap.
  intros [(b & -> & _)|Hx]; [by exists a, b|by apply IH].
Qed.

(** The pairs of [combinations] in the order of two nested loops. *)
Lemma combinations_2_seq_nested (a n : nat) :
  combinations (seq a n) 2
  = flat_map (λ i, map (λ j, [i; j]) (seq (S i) (a + n - S i))) (seq a n).
Proof.
  revert a. induction n as [|n IH]; intros a; [done|].
  cbn [seq flat_map]. rewrite combinations_2_cons, IH. f_equal.
  - f_equal. f_equal. lia.
  - apply flat_map_ext. intros i. do 2 f_equal. lia.
Qed.

(** Neither the program name nor the [-j] token is the token [-g]. *)
Lemma elem_of_const_args (concurrency : Z) (rest : list string) :
  "-g" ∈ const_args concurrency rest ↔ "-g" ∈ rest.
Proof.
  unfold const_args. cbn [app]. rewrite !elem_of_cons. split; [|tauto].
  intros [Hp|[Hj|Hrest]]; [done| |done].
  unfold program in *. exfalso. change ("-j" +:+ ?r) with (String "-" (String "j" r)) in Hj.
  congruence.
Qed.
End Sweep.

Section Header.
Implicit Types (lines comments : list string) (line : string).

Lemma tsv_header_comments comments lines :
  Forall is_comment comments → tsv_header (comments ++ lines) = tsv_header lines.
Proof. induction 1 as [|c comments Hc _ IH]; [done|]. cbn. by rewrite Hc. Qed.

Lemma tsv_header_first comments line lines :
  Forall is_comment comments → ¬ is_comment line →
  tsv_header (comments ++ line :: lines) = Some (split tab (rstrip line)).
Proof.
  intros Hc Hl. rewrite tsv_header_comments by done. cbn.
  unfold is_comment in Hl. by destruct (startswith "#" line).
Qed.

Lemma tsv_header_None lines : tsv_header lines = None ↔ Forall is_comment lines.
Proof.
  induction lines as [|line lines IH]; [done|]. cbn.
  destruct (startswith "#" line) eqn:Hs.
  - rewrite IH. split; [by constructor|by inversion 1].
  - split; [done|]. inversion 1 as [|?? Hc]. unfold is_comment in Hc. congruence.
Qed.

Lemma count_header_bound (header : list string) :
  count_header (Some header) ≠ Raise UnboundLocalError.
Proof.
  destruct header as [|x header]; [done|]. cbn.
  destruct (get_last header) as [y|e] eqn:Hlast.
  - cbn. destruct (str_contains ":" y); [|done]. by destruct header.
  - unfold get_last in Hlast. by destruct (last header); simplify_eq.
Qed.

(** The count once the header is split: the fields after the first,
    without a last field that holds a colon. *)
Lemma count_header_fields (x last_field : string) (middle : list string) :
  count_header (Some (x :: middle ++ [last_field]))
  = Ok (if has_char ":" last_field then length middle else S (length middle)).
Proof.
  cbn. unfold get_last. rewrite last_snoc. cbn. fold (has_char ":" last_field).
  destruct (has_char ":" last_field).
  - unfold pop_last. destruct (middle ++ [last_field]) eqn:Heq.
    + by destruct middle.
    + rewrite <- Heq. cbn. by rewrite removelast_last.
  - by rewrite length_app, Nat.add_1_r.
Qed.

Lemma count_pathways_tsv_open gzip_open_rt (infile : string) lines :
  gzip_open_rt infile = Ok lines →
  count_pathways_tsv gzip_open_rt infile = count_pathways_tsv_lines lines.
Proof. intros Hopen. unfold count_pathways_tsv. by rewrite Hopen. Qed.

(** A header line: what is left of it once the line end is stripped. *)
Lemma header_fields_rstrip (fields : list string) (last_field eol : string) :
  Forall (λ x, has_char tab x = false) fields →
  has_char tab last_field = false →
  all_space last_field = false → all_space eol = true →
  split tab (rstrip (join_tab (fields ++ [last_field]) +:+ eol))
  = fields ++ [rstrip last_field].
Proof.
  intros Hfields Hlast Hblank Heol.
  rewrite join_tab_snoc, string_app_assoc.
  rewrite rstrip_app_keep; rewrite rstrip_app_space by done;
    [|by apply rstrip_nonempty].
  rewrite <- join_tab_snoc. apply split_join_tab; [by destruct fields|].
  apply Forall_app. split; [done|]. constructor; [|done].
  by apply has_char_rstrip_false.
Qed.

(** A line without a tab is a header of one field. *)
Lemma header_single_field (line : string) :
  has_char tab line = false → split tab (rstrip line) = [rstrip line].
Proof. intros Hline. by apply split_no_sep, has_char_rstrip_false. Qed.

Lemma header_line_not_comment (first eol : string) (others : list string) :
  ¬ is_comment first → all_space eol = true →
  ¬ is_comment (join_tab (first :: others) +:+ eol).
Proof.
  unfold is_comment, join_tab. intros Hfirst Heol. cbn [join].
  destruct first as [|c first].
  - destruct others; [by rewrite startswith_all_space|by vm_compute].
  - destruct others.
    + by rewrite startswith_app_nonempty.
    + by rewrite string_app_assoc, startswith_app_nonempty.
Qed.
End Header.

Section Lookup.
Implicit Types (l : list json) (name : string) (x : json).

Lemma json_eq_str_true name x : json_eq_str name x = true ↔ x = JStr name.
Proof.
  destruct x; cbn; try (split; [discriminate|congruence]).
  rewrite String.eqb_eq. split; congruence.
Qed.

Lemma list_find_str_Some name l i :
  list_find_str name l = Some i ↔ is_first_index l name i.
Proof.
  unfold is_first_index. revert i. induction l as [|x l IH]; intros i; cbn.
  - split; [done|]. by intros [? _].
  - destruct (json_eq_str name x) eqn:Hx.
    + apply json_eq_str_true in Hx as ->. split.
      * intros [= <-]. split; [done|]. lia.
      * intros [_ Hfirst]. destruct i as [|i]; [done|].
        destruct (Hfirst 0); [lia|done].
    + assert (x ≠ JStr name) as Hne.
      { intros ?%json_eq_str_true. congruence. }
      split.
      * intros (i' & [Hi Hfirst]%IH & ->)%fmap_Some. split; [done|].
        intros [|k] Hk; cbn; [congruence|]. apply Hfirst. lia.
      * intros [Hi Hfirst]. destruct i as [|i]; cbn in Hi; [congruence|].
        apply fmap_Some. exists i. split; [|done]. apply IH. split; [done|].
        intros k Hk. apply (Hfirst (S k)). lia.
Qed.

Lemma list_find_str_None name l : list_find_str name l = None ↔ JStr name ∉ l.
Proof.
  induction l as [|x l IH]; cbn.
  - split; [|done]. intros _. apply not_elem_of_nil.
  - rewrite not_elem_of_cons. destruct (json_eq_str name x) eqn:Hx.
    + apply json_eq_str_true in Hx as ->. split; [done|]. by intros [? _].
    + rewrite fmap_None, IH. split; [|by intros [_ ?]].
      intros Hl. split; [|done]. intros ?%eq_sym%json_eq_str_true. congruence.
Qed.

Lemma list_find_str_elem name l :
  JStr name ∈ l → ∃ i, list_find_str name l = Some i.
Proof.
  intros Hin. destruct (list_find_str name l) as [i|] eqn:Hf; [by exists i|].
  by apply list_find_str_None in Hf.
Qed.

Lemma count_pathways_json_load gzip_json_load (infile : string) (d : json) :
  gzip_json_load infile = Ok d →
  count_pathways_json gzip_json_load infile = count_pathways_json_doc d.
Proof. intros Hload. unfold count_pathways_json. by rewrite Hload. Qed.

Lemma tp53_pleiotropic_pair_load gzip_json_load (infile : string) (d : json) :
  gzip_json_load infile = Ok d →
  tp53_pleiotropic_pair gzip_json_load infile = tp53_pleiotropic_pair_doc d.
Proof. intros Hload. unfold tp53_pleiotropic_pair. by rewrite Hload. Qed.

(** The pair once the pathway list is known. *)
Lemma tp53_pleiotropic_pair_list (d : json) l :
  py_getitem d "pathway" = Ok (JList l) →
  tp53_pleiotropic_pair_doc d
  = match list_find_str "Cycle" l, list_find_str "Damage" l with
    | Some i, Some j => Ok (i, j)
    | _, _ => Raise ValueError
    end.
Proof.
  intros Hp. unfold tp53_pleiotropic_pair_doc. rewrite Hp. cbn.
  destruct (list_find_str "Cycle" l); [|done]. cbn.
  by destruct (list_find_str "Damage" l).
Qed.
End Lookup.

(** * The claims *)

(** The tuples of [itertools.combinations(range(k), 2)]: there are
    [k (k - 1) / 2] of them, no tuple twice, each one a pair [(i, j)] with
    [0 <= i < j < k], in lexicographic order; every such pair is among
    them; for [k = 0] and [k = 1] there is none. *)
Lemma exhaustive_pairs (k : nat) :
  length (combinations (range k) 2) = k * (k - 1) / 2
  ∧ NoDup (combinations (range k) 2)
  ∧ Forall (λ x, ∃ i j, x = [i; j] ∧ 0 ≤ i ∧ i < j ∧ j < k)
      (combinations (range k) 2)
  ∧ StronglySorted lex_lt (combinations (range k) 2)
  ∧ (∀ i j, i < j < k → [i; j] ∈ combinations (range k) 2)
  ∧ combinations (range 0) 2 = []
  ∧ combinations (range 1) 2 = [].
Proof.
  unfold range. split_and!.
  - by rewrite combinations_2_length, length_seq.
  - eapply StronglySorted_irrefl_NoDup;
      [apply lex_lt_irrefl|apply combinations_2_seq_sorted].
  - apply Forall_forall. intros x Hx.
    apply elem_of_combinations_2_seq in Hx as (i & j & -> & ?).
    exists i, j. split; [done|lia].
  - apply combinations_2_seq_sorted.
  - intros i j ?. apply elem_of_combinations_2_seq. exists i, j.
    split; [done|lia].
  - done.
  - done.
Qed.

Section TsvClaims.
Context (gzip_open_rt : string → result (list string)).

(** C4. A TSV file whose lines are all comments (an empty file among
    them) makes [count_pathways_tsv] fail: [header] is never bound and
    reading it raises [UnboundLocalError], the error that the
    specification calls MalformedInputError (header not found). A file
    with a line that is not a comment never raises that error. *)
Theorem tsv_header_not_found (infile : string) (lines : list string) :
  gzip_open_rt infile = Ok lines →
  (Forall is_comment lines →
     count_pathways_tsv gzip_open_rt infile = Raise UnboundLocalError)
  ∧ (Exists (λ line, ¬ is_comment line) lines →
     count_pathways_tsv gzip_open_rt infile ≠ Raise UnboundLocalError).
Proof.
  intros Hopen. rewrite (count_pathways_tsv_open _ _ _ Hopen).
  unfold count_pathways_tsv_lines. split.
  - intros Hall. apply tsv_header_None in Hall. by rewrite Hall.
  - intros Hex. destruct (tsv_header lines) as [header|] eqn:Hh.
    + apply count_header_bound.
    + apply tsv_header_None in Hh. apply Exists_exists in Hex as (line & Hin & Hl).
      rewrite Forall_forall in Hh. destruct Hl. by apply Hh.
Qed.

(** C10. When the header of a TSV file, the first line that is not a
    comment, holds one tab-separated field only, [count_pathways_tsv] does
    not return 0: [header.pop(0)] leaves the empty list and [header[-1]]
    raises [IndexError]. *)
Theorem single_field_header_fails (infile : string)
    (comments rest : list string) (line field : string) :
  gzip_open_rt infile = Ok (comments ++ line :: rest) →
  Forall is_comment comments → ¬ is_comment line →
  split tab (rstrip line) = [field] →
  count_pathways_tsv gzip_open_rt infile = Raise IndexError
  ∧ count_pathways_tsv gzip_open_rt infile ≠ Ok 0.
Proof.
  intros Hopen Hc Hl Hsplit.
  assert (count_pathways_tsv gzip_open_rt infile = Raise IndexError) as Hfail.
  { rewrite (count_pathways_tsv_open _ _ _ Hopen).
    unfold count_pathways_tsv_lines.
    by rewrite tsv_header_first, Hsplit by done. }
  split; [done|]. by rewrite Hfail.
Qed.

(** C5, as the code has it. The header is the log-likelihood column, [k]
    pathway columns without a colon in their names and, possibly, one
    annotation column that holds a colon; no field holds a tab and the
    line ends with its line end. With the annotation column
    [count_pathways_tsv] returns [k], for every [k]. Without it,
    [count_pathways_tsv] returns [k] when there is a last pathway name and
    it is not blank (so [k >= 1]): [rstrip] removes a blank last name
    together with the line end. *)
Theorem count_pathways_tsv_counts_names (infile : string)
    (comments rest : list string) (loglik eol : string) (names : list string) :
  Forall is_comment comments → ¬ is_comment loglik → all_space eol = true →
  has_char tab loglik = false →
  Forall (λ name, has_char tab name = false) names →
  Forall (λ name, has_char ":" name = false) names →
  (∀ last_name, last names = Some last_name → all_space last_name = false →
     gzip_open_rt infile
       = Ok (comments ++ (join_tab (loglik :: names) +:+ eol) :: rest) →
     count_pathways_tsv gzip_open_rt infile = Ok (length names))
  ∧ (∀ annotation,
       has_char tab annotation = false → has_char ":" annotation = true →
       gzip_open_rt infile
         = Ok (comments ++ (join_tab (loglik :: names ++ [annotation]) +:+ eol) :: rest) →
       count_pathways_tsv gzip_open_rt infile = Ok (length names)).
Proof.
  intros Hc Hloglik Heol Htab Htabs Hcolons. split.
  - intros last_name Hlast Hblank Hopen.
    rewrite (count_pathways_tsv_open _ _ _ Hopen).
    unfold count_pathways_tsv_lines.
    rewrite tsv_header_first; [|done|by apply header_line_not_comment].
    apply last_Some in Hlast as [names' ->].
    apply Forall_app in Htabs as [Htabs [Hltab _]%Forall_cons].
    apply Forall_app in Hcolons as [_ [Hlcolon _]%Forall_cons].
    rewrite (app_comm_cons names' [last_name] loglik).
    rewrite header_fields_rstrip by (try constructor; done).
    cbn [app]. rewrite count_header_fields.
    rewrite has_char_rstrip_false by done.
    by rewrite length_app, Nat.add_1_r.
  - intros annotation Hatab Hacolon Hopen.
    rewrite (count_pathways_tsv_open _ _ _ Hopen).
    unfold count_pathways_tsv_lines.
    rewrite tsv_header_first; [|done|by apply header_line_not_comment].
    assert (all_space annotation = false) as Hblank.
    { destruct (all_space annotation) eqn:Hs; [|done].
      apply rstrip_empty_iff in Hs.
      apply (has_char_rstrip_2 ":") in Hacolon; [|done].
      by rewrite Hs in Hacolon. }
    rewrite (app_comm_cons names [annotation] loglik).
    rewrite header_fields_rstrip by (try constructor; done).
    cbn [app]. rewrite count_header_fields.
    by rewrite has_char_rstrip_2.
Qed.
End TsvClaims.

Lemma tsv_header_not_found_witness :
  count_pathways_tsv Example.open_rt "comments.tsv.gz" = Raise UnboundLocalError
  ∧ count_pathways_tsv Example.open_rt "result.tsv.gz" ≠ Raise UnboundLocalError.
Proof.
  split.
  - apply (tsv_header_not_found Example.open_rt "comments.tsv.gz"
             Example.comment_lines); [reflexivity|].
    repeat constructor.
  - apply (tsv_header_not_found Example.open_rt "result.tsv.gz"
             Example.result_lines); [reflexivity|].
    apply Exists_cons_tl, Exists_cons_hd. vm_compute. discriminate.
Defined.

Lemma single_field_header_fails_witness :
  count_pathways_tsv Example.open_rt "loglik.tsv.gz" = Raise IndexError
  ∧ count_pathways_tsv Example.open_rt "loglik.tsv.gz" ≠ Ok 0.
Proof.
  apply (single_field_header_fails Example.open_rt "loglik.tsv.gz"
           ["# likeligrid" +:+ Example.eol] [] ("loglik" +:+ Example.eol) "loglik").
  - reflexivity.
  - repeat constructor.
  - vm_compute. discriminate.
  - reflexivity.
Defined.

Lemma count_pathways_tsv_counts_names_witness :
  count_pathways_tsv Example.open_rt "plain.tsv.gz" = Ok 2
  ∧ count_pathways_tsv Example.open_rt "result.tsv.gz" = Ok 3.
Proof.
  split.
  - refine (proj1 (count_pathways_tsv_counts_names Example.open_rt "plain.tsv.gz"
             [] [] "loglik" Example.eol ["Cycle"; "Damage"] _ _ _ _ _ _)
             "Damage" _ _ _);
      first [ reflexivity | solve [repeat constructor] | (vm_compute; discriminate) ].
  - refine (proj2 (count_pathways_tsv_counts_names Example.open_rt "result.tsv.gz"
             ["# likeligrid" +:+ Example.eol]
             [join_tab ["-12.5"; "1.0"; "1.0"; "1.0"; "1.0"] +:+ Example.eol]
             "loglik" Example.eol ["Cycle"; "Damage"; "Growth"] _ _ _ _ _ _)
             "Cycle:Damage" _ _ _);
      first [ reflexivity | solve [repeat constructor] | (vm_compute; discriminate) ].
Defined.

(** C5 as it is stated fails on a header with the log-likelihood column and
    no pathway column ([k = 0]: [IndexError], not 0) and on a header whose
    last pathway name is blank (two pathway columns, the count is 1). *)
Lemma count_pathways_tsv_counts_names_counterexample :
  count_pathways_tsv (λ _, Ok [join_tab ["loglik"] +:+ Example.eol]) "result.tsv.gz"
    = Raise IndexError
  ∧ count_pathways_tsv
      (λ _, Ok [join_tab ["loglik"; "Cycle"; ""] +:+ Example.eol]) "result.tsv.gz"
    = Ok 1.
Proof. split; reflexivity. Qed.

Section JsonClaims.
Context (gzip_json_load : string → result json).

(** C8, as the code has it. When the decoded document is an object whose
    [pathway] field holds an array of length [k], [count_pathways_json]
    returns [k]. It fails when the field is absent ([KeyError] for an
    object without it, [TypeError] for a document that is not an object)
    and when the field holds null, a boolean or a number ([TypeError]);
    these are the failures that the specification calls
    MalformedInputError. A field that holds a string or an object is not
    refused: [len] gives its number of characters or of members. *)
Theorem count_pathways_json_cases (infile : string) (d : json) :
  gzip_json_load infile = Ok d →
  (∀ m l, d = JDict m → m !! "pathway" = Some (JList l) →
     count_pathways_json gzip_json_load infile = Ok (length l))
  ∧ (∀ m, d = JDict m → m !! "pathway" = None →
     count_pathways_json gzip_json_load infile = Raise KeyError)
  ∧ ((∀ m, d ≠ JDict m) →
     count_pathways_json gzip_json_load infile = Raise TypeError)
  ∧ (∀ m x, d = JDict m → m !! "pathway" = Some x → json_scalar x →
     count_pathways_json gzip_json_load infile = Raise TypeError)
  ∧ (∀ m s, d = JDict m → m !! "pathway" = Some (JStr s) →
     count_pathways_json gzip_json_load infile = Ok (String.length s))
  ∧ (∀ m m', d = JDict m → m !! "pathway" = Some (JDict m') →
     count_pathways_json gzip_json_load infile = Ok (size m')).
Proof.
  intros Hload. rewrite (count_pathways_json_load _ _ _ Hload).
  unfold count_pathways_json_doc. split_and!.
  - intros m l -> Hp. cbn. by rewrite Hp.
  - intros m -> Hp. cbn. by rewrite Hp.
  - intros Hd. destruct d; try done. by destruct (Hd m).
  - intros m x -> Hp Hx. cbn. rewrite Hp. by destruct x.
  - intros m s -> Hp. cbn. by rewrite Hp.
  - intros m m' -> Hp. cbn. by rewrite Hp.
Qed.

(** C3. On a decoded pathway sequence, [tp53_pleiotropic_pair] returns the
    pair (index of ["Cycle"], index of ["Damage"]), each the position of
    the first occurrence, when both names are in the sequence; when either
    is absent it fails: [list.index] raises [ValueError], the failure that
    the specification calls LookupError. *)
Theorem tp53_pair_lookup (infile : string) (d : json) (l : list json) :
  gzip_json_load infile = Ok d →
  py_getitem d "pathway" = Ok (JList l) →
  (JStr "Cycle" ∈ l → JStr "Damage" ∈ l →
     ∃ i j, tp53_pleiotropic_pair gzip_json_load infile = Ok (i, j)
            ∧ is_first_index l "Cycle" i ∧ is_first_index l "Damage" j)
  ∧ (JStr "Cycle" ∉ l ∨ JStr "Damage" ∉ l →
     tp53_pleiotropic_pair gzip_json_load infile = Raise ValueError).
Proof.
  intros Hload Hp. rewrite (tp53_pleiotropic_pair_load _ _ _ Hload).
  rewrite (tp53_pleiotropic_pair_list _ _ Hp). split.
  - intros [i Hi]%list_find_str_elem [j Hj]%list_find_str_elem.
    exists i, j. rewrite Hi, Hj. by rewrite <- !list_find_str_Some.
  - intros [Hc%list_find_str_None|Hd%list_find_str_None].
    + by rewrite Hc.
    + rewrite Hd. by destruct (list_find_str "Cycle" l).
Qed.
End JsonClaims.

Lemma count_pathways_json_cases_witness :
  count_pathways_json Example.json_load "genotype.json.gz" = Ok 3.
Proof.
  refine (proj1 (count_pathways_json_cases Example.json_load "genotype.json.gz"
            Example.genotype _) _ [JStr "Damage"; JStr "Growth"; JStr "Cycle"] _ _);
    reflexivity.
Defined.

(** C8 as it is stated fails on a [pathway] field that holds an object, or a
    string: neither is an array and [count_pathways_json] returns a count. *)
Lemma count_pathways_json_cases_counterexample :
  count_pathways_json
    (λ _, Ok (JDict {[ "pathway" := JDict {[ "Cycle" := JInt 0 ]} ]}))
    "genotype.json.gz" = Ok 1
  ∧ count_pathways_json
      (λ _, Ok (JDict {[ "pathway" := JStr "Cycle" ]})) "genotype.json.gz" = Ok 5.
Proof. split; reflexivity. Qed.

Lemma tp53_pair_lookup_witness :
  (∃ i j, tp53_pleiotropic_pair Example.json_load "genotype.json.gz" = Ok (i, j)
          ∧ is_first_index [JStr "Damage"; JStr "Growth"; JStr "Cycle"] "Cycle" i
          ∧ is_first_index [JStr "Damage"; JStr "Growth"; JStr "Cycle"] "Damage" j)
  ∧ tp53_pleiotropic_pair Example.json_load "nocycle.json.gz" = Raise ValueError.
Proof.
  split.
  - refine (proj1 (tp53_pair_lookup Example.json_load "genotype.json.gz"
              Example.genotype [JStr "Damage"; JStr "Growth"; JStr "Cycle"] _ _) _ _);
      first [ reflexivity | solve [repeat constructor] ].
  - refine (proj2 (tp53_pair_lookup Example.json_load "nocycle.json.gz"
              Example.genotype_no_cycle [JStr "Damage"; JStr "Growth"] _ _) _);
      first [ reflexivity | idtac ].
    left. intros Hin. repeat (apply elem_of_cons in Hin as [Hin|Hin]; [discriminate|]).
    by apply elem_of_nil in Hin.
Defined.

Section GeneratorClaims.
Context (gzip_open_rt : string → result (list string))
        (gzip_json_load : string → result json)
        (make_args : list (string * Z) → list string).

(** One file, one sweep value: when the pair selection succeeds the body
    of the loop ends normally, with as many jobs as [jobs_per_file] says. *)
Lemma iter_file_jobs (const args : list string) (epistasis tp53 : bool)
    (f : string) (n : nat) :
  jobs_per_file gzip_open_rt gzip_json_load const epistasis tp53 f = Ok n →
  outcome (iter_file gzip_open_rt gzip_json_load const args epistasis tp53 f) = Ok tt
  ∧ length (yielded (iter_file gzip_open_rt gzip_json_load const args epistasis tp53 f)) = n.
Proof.
  unfold jobs_per_file, iter_file. destruct epistasis; [|destruct tp53].
  - destruct (epistasis_npath _ _ const f) as [npath|e]; [|done].
    intros Hn. cbn in Hn. injection Hn as <-. rewrite call_ok.
    rewrite <- (Nat.mul_1_r (length (combinations (range npath) 2))).
    apply for_each_length_const.
    intros x (a & b & ->)%combinations_2_shape. by cbn.
  - destruct (tp53_pleiotropic_pair _ f) as [[i j]|e]; [|done].
    cbn. by intros [= <-].
  - by intros [= <-].
Qed.

(** C1, as the code has it. Whatever the input files, the sweep range and
    the mode, when the pair selection of the mode succeeds on every input
    file the generator ends normally after a finite number of jobs: the
    size of the sweep range times the sum over the input files of the
    number of pairs selected for the file in epistasis mode, of 1 in tp53
    mode and of 1 without a mode. *)
Theorem iter_args_length (infiles : list string) (range_s : list Z)
    (concurrency : Z) (rest : list string) (epistasis tp53 : bool)
    (counts : list nat) :
  Forall2 (λ f n,
      jobs_per_file gzip_open_rt gzip_json_load
        (const_args concurrency rest) epistasis tp53 f = Ok n)
    infiles counts →
  outcome (iter_args gzip_open_rt gzip_json_load make_args
             infiles range_s concurrency rest epistasis tp53) = Ok tt
  ∧ length (yielded (iter_args gzip_open_rt gzip_json_load make_args
                       infiles range_s concurrency rest epistasis tp53))
    = length range_s * sum_list counts.
Proof.
  intros Hfiles. unfold iter_args.
  rewrite <- (length_map (λ value, [("s", value)]) range_s), <- sequential_single.
  apply for_each_length_const. intros v _. apply for_each_length.
  eapply Forall2_impl; [done|]. intros f n. apply iter_file_jobs.
Qed.

(** C6. In epistasis mode the pathway count of a file comes from
    [count_pathways_tsv] when the token [-g] is among the forwarded
    arguments [rest], and from [count_pathways_json] when it is not; the
    program name and the [-j] token, which precede [rest] in [const], do
    not change the choice. *)
Theorem counter_choice (infile : string) (concurrency : Z) (rest : list string) :
  ("-g" ∈ rest →
     epistasis_npath gzip_open_rt gzip_json_load (const_args concurrency rest) infile
     = count_pathways_tsv gzip_open_rt infile)
  ∧ ("-g" ∉ rest →
     epistasis_npath gzip_open_rt gzip_json_load (const_args concurrency rest) infile
     = count_pathways_json gzip_json_load infile)
  ∧ epistasis_npath gzip_open_rt gzip_json_load (const_args concurrency rest) infile
    = epistasis_npath gzip_open_rt gzip_json_load rest infile.
Proof.
  unfold epistasis_npath.
  rewrite (bool_decide_ext _ _ (elem_of_const_args concurrency rest)).
  split_and!; [| |done].
  - intros Hg. by rewrite bool_decide_eq_true_2.
  - intros Hg. by rewrite bool_decide_eq_false_2.
Qed.

(** C7. Without a mode the generator yields one job per sweep value and
    input file, the sweep values in the order of the range (ascending for
    a range [begin, end)) and, for each of them, the files in the given
    order; each job is [program], the [-j] token, the forwarded arguments,
    the flags of the sweep value and the file, without a pair flag. Two
    files and the range [2, 4) give four jobs. *)
Theorem iter_args_no_mode (infiles : list string) (range_s : list Z)
    (concurrency : Z) (rest : list string) :
  iter_args gzip_open_rt gzip_json_load make_args
    infiles range_s concurrency rest false false
  = Gen (concat (map (λ s,
           map (λ f, [program; "-j" +:+ str_of_Z concurrency] ++ rest
                     ++ make_args [("s", s)] ++ [f]) infiles) range_s))
        (Ok tt)
  ∧ length (yielded (iter_args gzip_open_rt gzip_json_load make_args
                       infiles range_s concurrency rest false false))
    = length range_s * length infiles
  ∧ (∀ b e : Z, StronglySorted Z.lt (range_Z b e))
  ∧ (∀ f1 f2 : string,
       iter_args gzip_open_rt gzip_json_load make_args
         [f1; f2] (range_Z 2 4) 3 rest false false
       = Gen [ ["likeligrid"; "-j3"] ++ rest ++ make_args [("s", 2%Z)] ++ [f1];
               ["likeligrid"; "-j3"] ++ rest ++ make_args [("s", 2%Z)] ++ [f2];
               ["likeligrid"; "-j3"] ++ rest ++ make_args [("s", 3%Z)] ++ [f1];
               ["likeligrid"; "-j3"] ++ rest ++ make_args [("s", 3%Z)] ++ [f2] ]
             (Ok tt)).
Proof.
  assert (∀ fs rs c,
    iter_args gzip_open_rt gzip_json_load make_args fs rs c rest false false
    = Gen (concat (map (λ s,
             map (λ f, [program; "-j" +:+ str_of_Z c] ++ rest
                       ++ make_args [("s", s)] ++ [f]) fs) rs))
          (Ok tt)) as Hjobs.
  { intros fs rs c. unfold iter_args. rewrite sequential_single.
    rewrite (for_each_ok _ _ (λ v,
      map (λ f, const_args c rest ++ make_args v ++ [f]) fs)).
    - by rewrite map_map.
    - intros v _. rewrite (for_each_ok _ _ (λ f,
        [const_args c rest ++ make_args v ++ [f]])); [|done].
      by rewrite concat_map_singleton. }
  split_and!.
  - apply Hjobs.
  - rewrite Hjobs. cbn [yielded]. apply length_concat_map_const.
    intros s. apply length_map.
  - apply range_Z_ascending.
  - intros f1 f2. by rewrite Hjobs.
Qed.

End GeneratorClaims.

Lemma iter_args_length_witness :
  outcome (iter_args Example.open_rt Example.json_load Example.make_args
             ["result.tsv.gz"; "plain.tsv.gz"] (range_Z 2 4) 3 ["-g"] true false)
  = Ok tt
  ∧ length (yielded (iter_args Example.open_rt Example.json_load Example.make_args
                       ["result.tsv.gz"; "plain.tsv.gz"] (range_Z 2 4) 3 ["-g"]
                       true false))
    = length (range_Z 2 4) * sum_list [3; 1].
Proof.
  apply (iter_args_length Example.open_rt Example.json_load Example.make_args
           ["result.tsv.gz"; "plain.tsv.gz"] (range_Z 2 4) 3 ["-g"] true false [3; 1]).
  repeat constructor.
Defined.

(** C1 as it is stated fails when the pair selection raises on a file: in
    tp53 mode, with a second file that has no ["Cycle"] pathway, the
    generator yields the job of the first file and stops with [ValueError];
    the stated length is 2 * (1 + 1). *)
Lemma iter_args_length_counterexample :
  iter_args Example.open_rt Example.json_load Example.make_args
    ["genotype.json.gz"; "nocycle.json.gz"] (range_Z 2 4) 3 [] false true
  = Gen [["likeligrid"; "-j3"; "-e 2 0"; "--s=2"; "genotype.json.gz"]]
        (Raise ValueError)
  ∧ length (yielded (iter_args Example.open_rt Example.json_load Example.make_args
                       ["genotype.json.gz"; "nocycle.json.gz"] (range_Z 2 4) 3 []
                       false true))
    ≠ length (range_Z 2 4) * (1 + 1).
Proof. split; [reflexivity|vm_compute; discriminate]. Qed.


(** * Further properties of [run.py] *)

Section MoreLoops.
Context {X : Type}.
Implicit Types (xs : list X) (body : X → gen unit) (P : job → Prop).

Lemma gen_eta {A} (g : gen A) : g = Gen (yielded g) (outcome g).
Proof. by destruct g. Qed.

Lemma gen_bind_outcome_raise {A B} (g : gen A) (e : exn) (k : A → gen B) :
  outcome g = Raise e → g ≫= k = Gen (yielded g) (Raise e).
Proof. intros Hg. unfold mbind, gen_bind. by rewrite Hg. Qed.

Lemma gen_bind_yielded_Forall {A B} P (g : gen A) (k : A → gen B) :
  Forall P (yielded g) → (∀ a, Forall P (yielded (k a))) →
  Forall P (yielded (g ≫= k)).
Proof.
  intros Hg Hk. unfold mbind, gen_bind. destruct (outcome g) as [a|e]; cbn; [|done].
  apply Forall_app. by split.
Qed.

Lemma for_each_yielded_Forall P xs body :
  (∀ x, x ∈ xs → Forall P (yielded (body x))) →
  Forall P (yielded (for_each xs body)).
Proof.
  induction xs as [|x xs IH]; intros Hbody; [constructor|].
  cbn [for_each]. apply gen_bind_yielded_Forall.
  - apply Hbody, list_elem_of_here.
  - intros _. apply IH. intros y Hy. by apply Hbody, list_elem_of_further.
Qed.

(** A loop ends normally exactly when each of its iterations does. *)
Lemma for_each_outcome_ok xs body :
  outcome (for_each xs body) = Ok tt ↔ ∀ x, x ∈ xs → outcome (body x) = Ok tt.
Proof.
  induction xs as [|x xs IH]; cbn [for_each].
  - split; [|done]. by intros _ x ?%elem_of_nil.
  - destruct (outcome (body x)) as [[]|e] eqn:Hx.
    + rewrite (gen_bind_outcome_ok _ _ _ Hx). cbn [outcome]. rewrite IH. split.
      * intros Hxs y [->|Hy]%elem_of_cons; [done|by apply Hxs].
      * intros Hall y Hy. by apply Hall, list_elem_of_further.
    + rewrite (gen_bind_outcome_raise _ _ _ Hx). cbn [outcome]. split; [done|].
      intros Hall. rewrite Hall in Hx by apply list_elem_of_here. done.
Qed.

(** A loop stops at its first iteration that raises: the jobs of the
    iterations before it, then the jobs of that iteration, then the
    exception. *)
Lemma for_each_first_raise xs1 x xs2 body (e : exn) :
  (∀ y, y ∈ xs1 → outcome (body y) = Ok tt) → outcome (body x) = Raise e →
  for_each (xs1 ++ x :: xs2) body
  = Gen (yielded (for_each xs1 body) ++ yielded (body x)) (Raise e).
Proof.
  intros Hxs1 Hx. induction xs1 as [|y xs1 IH]; cbn [app for_each].
  - by rewrite (gen_bind_outcome_raise _ _ _ Hx).
  - assert (outcome (body y) = Ok tt) as Hy by apply Hxs1, list_elem_of_here.
    rewrite !(gen_bind_outcome_ok _ _ _ Hy), IH; cbn [yielded outcome].
    + by rewrite app_assoc.
    + intros z Hz. by apply Hxs1, list_elem_of_further.
Qed.
End MoreLoops.

Section MoreGenerator.
Context (gzip_open_rt : string → result (list string))
        (gzip_json_load : string → result json)
        (make_args : list (string * Z) → list string).

(** A file on which the pair selection raises yields no job: the counter
    and the pair lookup run before the first [yield] of the file. *)
Lemma iter_file_raise (const args : list string) (epistasis tp53 : bool)
    (f : string) (e : exn) :
  jobs_per_file gzip_open_rt gzip_json_load const epistasis tp53 f = Raise e →
  iter_file gzip_open_rt gzip_json_load const args epistasis tp53 f
  = Gen [] (Raise e).
Proof.
  unfold jobs_per_file, iter_file. destruct epistasis; [|destruct tp53].
  - destruct (epistasis_npath _ _ const f) as [npath|e']; [done|].
    by intros [= ->].
  - destruct (tp53_pleiotropic_pair _ f) as [pair|e']; [done|].
    by intros [= ->].
  - done.
Qed.

Lemma iter_file_outcome (const args : list string) (epistasis tp53 : bool)
    (f : string) :
  outcome (iter_file gzip_open_rt gzip_json_load const args epistasis tp53 f) = Ok tt
  ↔ ∃ n, jobs_per_file gzip_open_rt gzip_json_load const epistasis tp53 f = Ok n.
Proof.
  split.
  - intros Hout.
    destruct (jobs_per_file gzip_open_rt gzip_json_load const epistasis tp53 f)
      as [n|e] eqn:Hn; [by exists n|].
    by rewrite (iter_file_raise _ args _ _ _ _ Hn) in Hout.
  - intros [n Hn]. by apply (iter_file_jobs _ _ _ args) in Hn as [? _].
Qed.

(** X1. The generator ends normally exactly when the sweep range is empty
    or the pair selection of the mode succeeds on every input file: with a
    sweep value to run, one unreadable or malformed file makes the whole
    run raise. *)
Theorem iter_args_ends_normally (infiles : list string) (range_s : list Z)
    (concurrency : Z) (rest : list string) (epistasis tp53 : bool) :
  outcome (iter_args gzip_open_rt gzip_json_load make_args
             infiles range_s concurrency rest epistasis tp53) = Ok tt
  ↔ range_s = []
    ∨ Forall (λ f, ∃ n,
          jobs_per_file gzip_open_rt gzip_json_load
            (const_args concurrency rest) epistasis tp53 f = Ok n) infiles.
Proof.
  unfold iter_args. rewrite sequential_single, for_each_outcome_ok.
  rewrite Forall_forall. split.
  - intros Hall. destruct range_s as [|s range_s]; [by left|right].
    intros f Hf.
    apply (iter_file_outcome _ (make_args [("s", s)])).
    eapply for_each_outcome_ok; [|done].
    apply Hall. cbn. apply list_elem_of_here.
  - intros [->|Hall] v Hv; [by apply elem_of_nil in Hv|].
    apply for_each_outcome_ok. intros f Hf. apply iter_file_outcome. by apply Hall.
Qed.

(** X2. The first input file on which the pair selection raises stops the
    run during the first sweep value: the generator yields the jobs of the
    files before it for that sweep value, no job of the failing file and
    nothing of the files and sweep values after it, and raises the exception
    of that file. *)
Theorem iter_args_first_failure (before after : list string) (f : string)
    (s : Z) (range_s : list Z) (concurrency : Z) (rest : list string)
    (epistasis tp53 : bool) (counts : list nat) (e : exn) :
  Forall2 (λ f n,
      jobs_per_file gzip_open_rt gzip_json_load
        (const_args concurrency rest) epistasis tp53 f = Ok n) before counts →
  jobs_per_file gzip_open_rt gzip_json_load
    (const_args concurrency rest) epistasis tp53 f = Raise e →
  iter_args gzip_open_rt gzip_json_load make_args
    (before ++ f :: after) (s :: range_s) concurrency rest epistasis tp53
  = Gen (yielded (iter_args gzip_open_rt gzip_json_load make_args
                    before [s] concurrency rest epistasis tp53))
        (Raise e)
  ∧ length (yielded (iter_args gzip_open_rt gzip_json_load make_args
                       before [s] concurrency rest epistasis tp53))
    = sum_list counts.
Proof.
  intros Hbefore Hf.
  assert (∀ args, Forall2 (λ f n,
      outcome (iter_file gzip_open_rt gzip_json_load
                 (const_args concurrency rest) args epistasis tp53 f) = Ok tt
      ∧ length (yielded (iter_file gzip_open_rt gzip_json_load
                 (const_args concurrency rest) args epistasis tp53 f)) = n)
    before counts) as Hjobs.
  { intros args. eapply Forall2_impl; [done|]. intros f' n. apply iter_file_jobs. }
  destruct (for_each_length before _ counts (Hjobs (make_args [("s", s)])))
    as [Hout Hlen].
  unfold iter_args. rewrite !sequential_single. cbn [map for_each].
  rewrite (gen_bind_outcome_ok _ _ _ Hout). cbn [for_each mret gen_ret yielded].
  rewrite app_nil_r. split; [|done].
  rewrite (for_each_first_raise before f after _ e).
  - rewrite (iter_file_raise _ _ _ _ _ _ Hf). cbn [yielded]. rewrite app_nil_r.
    by rewrite (gen_bind_outcome_raise _ e).
  - by apply for_each_outcome_ok.
  - by rewrite (iter_file_raise _ _ _ _ _ _ Hf).
Qed.

Lemma for_each_ext {X} (xs : list X) (body body' : X → gen unit) :
  (∀ x, x ∈ xs → body x = body' x) → for_each xs body = for_each xs body'.
Proof.
  induction xs as [|x xs IH]; intros Hbody; [done|]. cbn [for_each].
  rewrite (Hbody x) by apply list_elem_of_here. f_equal.
  rewrite IH; [done|]. intros y Hy. by apply Hbody, list_elem_of_further.
Qed.

(** X3. Every job that the generator yields, in a run that ends normally
    or not, is [program], the [-j] token and the forwarded arguments, then
    the pair flag of the mode (one [-e i j] token, with [i < j] in epistasis
    mode; no token without a mode), then the flags of one value of the sweep
    range, then one of the input files as last token. *)
Theorem iter_args_job_shape (infiles : list string) (range_s : list Z)
    (concurrency : Z) (rest : list string) (epistasis tp53 : bool) :
  Forall (λ job, ∃ s f flags,
      s ∈ range_s ∧ f ∈ infiles
      ∧ job = [program; "-j" +:+ str_of_Z concurrency] ++ rest
              ++ flags ++ make_args [("s", s)] ++ [f]
      ∧ (if epistasis
         then ∃ i j, i < j
                ∧ flags = ["-e " +:+ str_of_nat i +:+ " " +:+ str_of_nat j]
         else if tp53
         then ∃ i j, flags = ["-e " +:+ str_of_nat i +:+ " " +:+ str_of_nat j]
         else flags = []))
    (yielded (iter_args gzip_open_rt gzip_json_load make_args
                infiles range_s concurrency rest epistasis tp53)).
Proof.
  unfold iter_args. rewrite sequential_single.
  apply for_each_yielded_Forall.
  intros v (s & -> & Hs)%list_elem_of_fmap.
  apply for_each_yielded_Forall. intros f Hf. unfold iter_file.
  destruct epistasis; [|destruct tp53].
  - apply gen_bind_yielded_Forall; [constructor|]. intros npath.
    apply for_each_yielded_Forall.
    intros x (i & j & -> & _ & Hij & _)%elem_of_combinations_2_seq.
    cbn. constructor; [|constructor].
    exists s, f, ["-e " +:+ str_of_nat i +:+ " " +:+ str_of_nat j].
    split_and!; [done|done|done|]. by exists i, j.
  - apply gen_bind_yielded_Forall; [constructor|]. intros [i j].
    cbn. constructor; [|constructor].
    exists s, f, ["-e " +:+ str_of_nat i +:+ " " +:+ str_of_nat j].
    split_and!; [done|done|done|]. by exists i, j.
  - cbn. constructor; [|constructor]. by exists s, f, [].
Qed.

(** X4. Which files a run reads. In epistasis mode with [-g] among the
    forwarded arguments the JSON reader is never used, and without [-g] the
    TSV reader is never used; in either case the [tp53] option changes
    nothing. In tp53 mode the TSV reader is never used, and without a mode
    no file is read at all. *)
Theorem iter_args_readers (open_rt' : string → result (list string))
    (json_load' : string → result json)
    (infiles : list string) (range_s : list Z)
    (concurrency : Z) (rest : list string) (tp53 tp53' : bool) :
  ("-g" ∈ rest →
     iter_args gzip_open_rt gzip_json_load make_args
       infiles range_s concurrency rest true tp53
     = iter_args gzip_open_rt json_load' make_args
         infiles range_s concurrency rest true tp53')
  ∧ ("-g" ∉ rest →
     iter_args gzip_open_rt gzip_json_load make_args
       infiles range_s concurrency rest true tp53
     = iter_args open_rt' gzip_json_load make_args
         infiles range_s concurrency rest true tp53')
  ∧ iter_args gzip_open_rt gzip_json_load make_args
      infiles range_s concurrency rest false true
    = iter_args open_rt' gzip_json_load make_args
        infiles range_s concurrency rest false true
  ∧ iter_args gzip_open_rt gzip_json_load make_args
      infiles range_s concurrency rest false false
    = iter_args open_rt' json_load' make_args
        infiles range_s concurrency rest false false.
Proof.
  unfold iter_args. split_and!.
  - intros Hg. apply for_each_ext. intros v _. apply for_each_ext. intros f _.
    unfold iter_file, epistasis_npath.
    by rewrite !bool_decide_eq_true_2 by by apply elem_of_const_args.
  - intros Hg. apply for_each_ext. intros v _. apply for_each_ext. intros f _.
    unfold iter_file, epistasis_npath.
    by rewrite !bool_decide_eq_false_2 by by rewrite elem_of_const_args.
  - done.
  - done.
Qed.

(** X5. [main] sweeps over [range(begin, end)]: with [end <= begin] the
    generator it builds yields no job and ends normally in every mode,
    whatever the input files are (none is read); without a mode it yields
    [end - begin] jobs for each input file. *)
Theorem main_it_sweep (args : cli_args) (rest : list string) :
  ((cli_end args ≤ cli_begin args)%Z →
     main_it gzip_open_rt gzip_json_load make_args args rest = Gen [] (Ok tt))
  ∧ (cli_epistasis args = false → cli_tp53 args = false →
     outcome (main_it gzip_open_rt gzip_json_load make_args args rest) = Ok tt
     ∧ length (yielded (main_it gzip_open_rt gzip_json_load make_args args rest))
       = Z.to_nat (cli_end args - cli_begin args) * length (cli_infile args)).
Proof.
  unfold main_it. split.
  - intros Hle. unfold range_Z.
    by replace (Z.to_nat (cli_end args - cli_begin args)) with 0 by lia.
  - intros -> ->. unfold iter_args. rewrite sequential_single.
    destruct (for_each_length_const
      (map (λ value, [("s", value)]) (range_Z (cli_begin args) (cli_end args)))
      (λ v, for_each (cli_infile args)
              (iter_file gzip_open_rt gzip_json_load
                 (const_args (cli_jobs args) rest) (make_args v) false false))
      (length (cli_infile args))) as [Hout Hlen].
    { intros v _. rewrite <- (Nat.mul_1_r (length (cli_infile args))).
      apply for_each_length_const. by intros f _. }
    split; [done|]. by rewrite Hlen, length_map, length_range_Z.
Qed.

(** The jobs of one file in epistasis mode, once its pathway count is
    known. *)
Lemma iter_file_epistasis (const args : list string) (tp53 : bool)
    (f : string) (npath : nat) :
  epistasis_npath gzip_open_rt gzip_json_load const f = Ok npath →
  iter_file gzip_open_rt gzip_json_load const args true tp53 f
  = Gen (epistasis_jobs const args f npath) (Ok tt).
Proof.
  intros Hn. unfold iter_file. rewrite Hn, call_ok.
  rewrite (for_each_ok _ _ (λ x,
    match format_e x with
    | Ok flag => [const ++ [flag] ++ args ++ [f]]
    | Raise _ => []
    end)).
  - f_equal. unfold epistasis_jobs, range.
    rewrite combinations_2_seq_nested. cbn [Nat.add].
    induction (seq 0 npath) as [|i more IH]; [done|].
    cbn [flat_map]. rewrite map_app, concat_app, IH. f_equal.
    rewrite map_map. apply concat_map_singleton.
  - by intros x (i & j & ->)%combinations_2_shape.
Qed.

(** X6. In epistasis mode, when the pathway counter succeeds on every input
    file, the generator ends normally and its jobs are, for each sweep value
    in the order of the range and each file in the given order, one job for
    each pair [i < j] below the pathway count of the file, in the order of
    two nested ascending loops, [i] outside and [j] inside, each with the
    flag [-e i j]. *)
Theorem iter_args_epistasis_jobs (infiles : list string) (npaths : list nat)
    (range_s : list Z) (concurrency : Z) (rest : list string) (tp53 : bool) :
  Forall2 (λ f npath,
      epistasis_npath gzip_open_rt gzip_json_load
        (const_args concurrency rest) f = Ok npath) infiles npaths →
  iter_args gzip_open_rt gzip_json_load make_args
    infiles range_s concurrency rest true tp53
  = Gen (flat_map (λ s,
           concat (zip_with
             (epistasis_jobs (const_args concurrency rest) (make_args [("s", s)]))
             infiles npaths)) range_s)
        (Ok tt).
Proof.
  intros Hfiles. unfold iter_args. rewrite sequential_single.
  rewrite (for_each_ok _ _ (λ v,
    concat (zip_with (epistasis_jobs (const_args concurrency rest) (make_args v))
              infiles npaths))).
  - by rewrite map_map, flat_map_concat_map.
  - intros v _. induction Hfiles as [|f npath infiles npaths Hf _ IH]; [done|].
    cbn [for_each zip_with concat].
    by rewrite (iter_file_epistasis _ _ _ _ _ Hf), gen_bind_ok, IH.
Qed.
End MoreGenerator.

Section Decimal.
Implicit Types (s t : string) (c : ascii).

Lemma str_of_Z_inj (n n' : Z) : str_of_Z n = str_of_Z n' → n = n'.
Proof.
  unfold str_of_Z. intros Heq. apply DecimalZ.to_int_inj.
  assert (∀ z, NilZero.int_of_string (NilZero.string_of_int (Z.to_int z))
               = Some (Z.to_int z)) as Hisi.
  { intros z. apply NilZero.isi; destruct z as [|p|p]; cbn; try discriminate.
    all: intros [= Hp]; by apply DecimalPos.Unsigned.to_uint_nonnil in Hp. }
  apply (inj Some). by rewrite <- !Hisi, Heq.
Qed.

Lemma str_of_nat_inj (n n' : nat) : str_of_nat n = str_of_nat n' → n = n'.
Proof. unfold str_of_nat. intros Heq%str_of_Z_inj. lia. Qed.

Lemma string_of_uint_no_space (d : Decimal.uint) :
  has_char " " (NilEmpty.string_of_uint d) = false.
Proof.
  induction d as [|d IH|d IH|d IH|d IH|d IH|d IH|d IH|d IH|d IH|d IH];
    cbn [NilEmpty.string_of_uint];
    [done|rewrite has_char_cons, IH; by rewrite bool_decide_eq_false_2..].
Qed.

(** The decimal form of a natural number holds no space. *)
Lemma str_of_nat_no_space (n : nat) : has_char " " (str_of_nat n) = false.
Proof.
  unfold str_of_nat, str_of_Z. destruct (Z.of_nat n) as [|p|p] eqn:Hn; [done| |lia].
  cbn. destruct (Pos.to_uint p); [done|apply string_of_uint_no_space..].
Qed.

(** Two strings cut at the first occurrence of a separator. *)
Lemma string_app_sep_inj c s s' t t' :
  has_char c s = false → has_char c s' = false →
  s +:+ String c t = s' +:+ String c t' → s = s' ∧ t = t'.
Proof.
  revert s'. induction s as [|d s IH]; intros [|d' s'].
  - intros _ _ [= ->]. done.
  - rewrite has_char_cons. intros _ [Hd _]%orb_false_iff [= <- _].
    by rewrite bool_decide_eq_true_2 in Hd.
  - rewrite has_char_cons. intros [Hd _]%orb_false_iff _ [= -> _].
    by rewrite bool_decide_eq_true_2 in Hd.
  - rewrite !has_char_cons, !string_app_cons.
    intros [_ Hs]%orb_false_iff [_ Hs']%orb_false_iff [= -> Heq].
    by destruct (IH s' Hs Hs' Heq) as [-> ->].
Qed.

Lemma pair_flag_inj (i j i' j' : nat) :
  format_e [i; j] = format_e [i'; j'] → i = i' ∧ j = j'.
Proof.
  cbn. intros [= Heq].
  apply string_app_sep_inj in Heq as [Hi%str_of_nat_inj Hj%str_of_nat_inj];
    [done|apply str_of_nat_no_space..].
Qed.
End Decimal.

Section MoreTsv.
Implicit Types (lines comments rest : list string) (line eol : string).

Lemma is_comment_app_space line eol :
  all_space eol = true → is_comment (line +:+ eol) ↔ is_comment line.
Proof.
  intros Heol. unfold is_comment. destruct line as [|c line].
  - cbn [String.append]. by rewrite startswith_all_space.
  - by rewrite startswith_app_nonempty.
Qed.

(** X7. [count_pathways_tsv] looks at the header only: the comment lines
    before the first line that is not a comment, all the lines after it,
    and the line end or other whitespace that ends it change nothing. *)
Theorem count_pathways_tsv_header_only comments rest line eol :
  Forall is_comment comments → ¬ is_comment line → all_space eol = true →
  count_pathways_tsv_lines (comments ++ (line +:+ eol) :: rest)
  = count_pathways_tsv_lines [line].
Proof.
  intros Hc Hl Heol. unfold count_pathways_tsv_lines.
  rewrite tsv_header_first; [|done|by rewrite is_comment_app_space].
  change [line] with ([] ++ line :: []).
  rewrite (tsv_header_first [] line []); [|done|done].
  by rewrite rstrip_app_space.
Qed.

(** X8. On a header of two fields or more [count_pathways_tsv] never
    fails: it returns the number of fields less one, or less two when the
    last field holds a colon. *)
Theorem count_pathways_tsv_two_fields comments rest line (fields : list string) :
  Forall is_comment comments → ¬ is_comment line →
  split tab (rstrip line) = fields → 2 ≤ length fields →
  count_pathways_tsv_lines (comments ++ line :: rest)
  = Ok (if has_char ":" (default "" (last fields))
        then length fields - 2 else length fields - 1).
Proof.
  intros Hc Hl Hsplit Hlen. unfold count_pathways_tsv_lines.
  rewrite tsv_header_first, Hsplit by done.
  destruct fields as [|x fields]; [cbn in Hlen; lia|].
  destruct (exists_last (l := fields)) as (middle & last_field & ->).
  { intros ->. cbn in Hlen. lia. }
  rewrite count_header_fields, app_comm_cons, last_snoc.
  cbn [default from_option id length].
  rewrite length_app. cbn [length].
  destruct (has_char ":" last_field); cbv iota; f_equal; lia.
Qed.

(** X9. The only exceptions that [count_pathways_tsv] raises by itself are
    [UnboundLocalError] (no header) and [IndexError] (a header of one
    field); any other exception comes from opening or reading the file. *)
Theorem count_pathways_tsv_errors
    (gzip_open_rt : string → result (list string)) (infile : string) (e : exn) :
  count_pathways_tsv gzip_open_rt infile = Raise e →
  gzip_open_rt infile = Raise e ∨ e = UnboundLocalError ∨ e = IndexError.
Proof.
  unfold count_pathways_tsv.
  destruct (gzip_open_rt infile) as [lines|e']; cbn; [|intros [= ->]; by left].
  unfold count_pathways_tsv_lines.
  destruct (tsv_header lines) as [[|x fields]|].
  - cbn. intros [= <-]. auto.
  - destruct fields as [|y fields _] using rev_ind.
    + cbn. intros [= <-]. auto.
    + rewrite (count_header_fields x y fields). discriminate.
  - cbn. intros [= <-]. auto.
Qed.
End MoreTsv.

Section MoreJson.
Context (gzip_json_load : string → result json).


(** X11. What [tp53_pleiotropic_pair] does on a document that is not an
    object with a [pathway] array: [TypeError] when the document is not an
    object, [KeyError] when the object has no [pathway] field,
    [AttributeError] when the field holds null, a boolean, a number or an
    object; and when the field holds a string, the names are searched as
    substrings of that string and their positions are returned. *)
Theorem tp53_pair_other_documents (infile : string) (d : json) :
  gzip_json_load infile = Ok d →
  ((∀ m, d ≠ JDict m) →
     tp53_pleiotropic_pair gzip_json_load infile = Raise TypeError)
  ∧ (∀ m, d = JDict m → m !! "pathway" = None →
     tp53_pleiotropic_pair gzip_json_load infile = Raise KeyError)
  ∧ (∀ m x, d = JDict m → m !! "pathway" = Some x →
     json_scalar x ∨ (∃ m', x = JDict m') →
     tp53_pleiotropic_pair gzip_json_load infile = Raise AttributeError)
  ∧ (∀ m s i j, d = JDict m → m !! "pathway" = Some (JStr s) →
     str_find "Cycle" s = Some i → str_find "Damage" s = Some j →
     tp53_pleiotropic_pair gzip_json_load infile = Ok (i, j))
  ∧ (∀ m s, d = JDict m → m !! "pathway" = Some (JStr s) →
     str_find "Cycle" s = None ∨ str_find "Damage" s = None →
     tp53_pleiotropic_pair gzip_json_load infile = Raise ValueError).
Proof.
  intros Hload. rewrite (tp53_pleiotropic_pair_load _ _ _ Hload).
  unfold tp53_pleiotropic_pair_doc. split_and!.
  - intros Hd. destruct d; try done. by destruct (Hd m).
  - intros m -> Hp. cbn. by rewrite Hp.
  - intros m x -> Hp Hx. cbn. rewrite Hp. cbn.
    destruct Hx as [Hx|[m' ->]]; [by destruct x|done].
  - intros m s i j -> Hp Hi Hj. cbn. rewrite Hp. cbn. by rewrite Hi, Hj.
  - intros m s -> Hp Hs. cbn. rewrite Hp. cbn.
    destruct Hs as [Hs|Hs]; rewrite Hs; [done|].
    by destruct (str_find "Cycle" s).
Qed.
End MoreJson.

Section MoreEpistasis.
Context (gzip_open_rt : string → result (list string))
        (gzip_json_load : string → result json).

Lemma epistasis_jobs_map (const args : list string) (f : string) (npath : nat) :
  epistasis_jobs const args f npath
  = map (λ x, match x with
              | [i; j] => const ++ ["-e " +:+ str_of_nat i +:+ " " +:+ str_of_nat j]
                          ++ args ++ [f]
              | _ => []
              end)
      (combinations (range npath) 2).
Proof.
  unfold epistasis_jobs, range. rewrite combinations_2_seq_nested. cbn [Nat.add].
  induction (seq 0 npath) as [|i more IH]; [done|].
  cbn [flat_map]. by rewrite map_app, map_map, IH.
Qed.

(** X12. The pair flag is an injective encoding: two index pairs that get
    the same [-e i j] token are the same pair. So in epistasis mode the jobs
    of one file for one sweep value are pairwise distinct. *)
Theorem epistasis_jobs_distinct :
  (∀ i j i' j' : nat,
     format_e [i; j] = format_e [i'; j'] → i = i' ∧ j = j')
  ∧ (∀ (const args : list string) (tp53 : bool) (f : string) (npath : nat),
       epistasis_npath gzip_open_rt gzip_json_load const f = Ok npath →
       NoDup (yielded (iter_file gzip_open_rt gzip_json_load
                         const args true tp53 f))).
Proof.
  split; [apply pair_flag_inj|].
  intros const args tp53 f npath Hn.
  rewrite (iter_file_epistasis _ _ _ _ _ _ _ Hn). cbn [yielded].
  rewrite epistasis_jobs_map. apply NoDup_fmap_2_strong.
  - intros x y (i & j & ->)%combinations_2_shape
      (i' & j' & ->)%combinations_2_shape Heq.
    apply app_inv_head in Heq.
    destruct (pair_flag_inj i j i' j') as [-> ->]; [|done].
    cbn in Heq. cbn. congruence.
  - eapply StronglySorted_irrefl_NoDup;
      [apply lex_lt_irrefl|apply combinations_2_seq_sorted].
Qed.
End MoreEpistasis.

Section MoreSweep.
Context (gzip_open_rt : string → result (list string))
        (gzip_json_load : string → result json)
        (make_args : list (string * Z) → list string).

Lemma for_each_app {X} (xs ys : list X) (body : X → gen unit) :
  for_each (xs ++ ys) body = (for_each xs body ;; for_each ys body).
Proof.
  induction xs as [|x xs IH]; cbn [app for_each].
  - unfold mret, gen_ret. rewrite gen_bind_ok. cbn [app]. apply gen_eta.
  - rewrite IH. unfold mbind, gen_bind.
    destruct (outcome (body x)) as [[]|e]; cbn [yielded outcome]; [|done].
    destruct (outcome (for_each xs body)) as [[]|e]; cbn [yielded outcome];
      [|done].
    by rewrite app_assoc.
Qed.

Lemma range_Z_app (b m e : Z) :
  (b ≤ m ≤ e)%Z → range_Z b e = range_Z b m ++ range_Z m e.
Proof.
  intros Hm. unfold range_Z.
  replace (Z.to_nat (e - b)) with (Z.to_nat (m - b) + Z.to_nat (e - m)) by lia.
  rewrite seq_app, map_app. f_equal. cbn [Nat.add].
  replace (seq (Z.to_nat (m - b)) (Z.to_nat (e - m)))
    with (map (Nat.add (Z.to_nat (m - b))) (seq 0 (Z.to_nat (e - m))))
    by (rewrite <- (Nat.add_0_r (Z.to_nat (m - b))) at 2; apply fmap_add_seq).
  rewrite map_map.
  apply map_ext. intros i. lia.
Qed.

(** X13. Sweeps compose: the generator for a sweep range made of two
    consecutive parts is the generator of the first part followed, when that
    one ends normally, by the generator of the second part. For [main], the
    run from [begin] to [end] is the run from [begin] to [mid] followed by
    the run from [mid] to [end], for every [begin <= mid <= end]. *)
Theorem iter_args_sweep_app (infiles : list string) (range_1 range_2 : list Z)
    (concurrency : Z) (rest : list string) (epistasis tp53 dry_run : bool) :
  iter_args gzip_open_rt gzip_json_load make_args
    infiles (range_1 ++ range_2) concurrency rest epistasis tp53
  = (iter_args gzip_open_rt gzip_json_load make_args
       infiles range_1 concurrency rest epistasis tp53;;
     iter_args gzip_open_rt gzip_json_load make_args
       infiles range_2 concurrency rest epistasis tp53)
  ∧ (∀ b m e : Z, (b ≤ m ≤ e)%Z →
       main_it gzip_open_rt gzip_json_load make_args
         (CliArgs dry_run concurrency b e epistasis tp53 infiles) rest
       = (main_it gzip_open_rt gzip_json_load make_args
            (CliArgs dry_run concurrency b m epistasis tp53 infiles) rest;;
          main_it gzip_open_rt gzip_json_load make_args
            (CliArgs dry_run concurrency m e epistasis tp53 infiles) rest)).
Proof.
  assert (∀ r1 r2,
    iter_args gzip_open_rt gzip_json_load make_args
      infiles (r1 ++ r2) concurrency rest epistasis tp53
    = (iter_args gzip_open_rt gzip_json_load make_args
         infiles r1 concurrency rest epistasis tp53;;
       iter_args gzip_open_rt gzip_json_load make_args
         infiles r2 concurrency rest epistasis tp53)) as Happ.
  { intros r1 r2. unfold iter_args.
    by rewrite !sequential_single, map_app, for_each_app. }
  split; [apply Happ|].
  intros b m e Hm. unfold main_it.
  cbn [cli_begin cli_end cli_infile cli_jobs cli_epistasis cli_tp53].
  by rewrite (range_Z_app b m e Hm), Happ.
Qed.
End MoreSweep.

Lemma iter_args_first_failure_witness :
  iter_args Example.open_rt Example.json_load Example.make_args
    (["genotype.json.gz"] ++ "nocycle.json.gz" :: ["genotype.json.gz"])
    [2%Z; 3%Z] 3 [] false true
  = Gen (yielded (iter_args Example.open_rt Example.json_load Example.make_args
                    ["genotype.json.gz"] [2%Z] 3 [] false true))
        (Raise ValueError)
  ∧ length (yielded (iter_args Example.open_rt Example.json_load Example.make_args
                       ["genotype.json.gz"] [2%Z] 3 [] false true))
    = sum_list [1].
Proof.
  apply (iter_args_first_failure Example.open_rt Example.json_load
           Example.make_args ["genotype.json.gz"] ["genotype.json.gz"]
           "nocycle.json.gz" 2 [3%Z] 3 [] false true [1] ValueError).
  - repeat constructor.
  - reflexivity.
Defined.

Lemma iter_args_epistasis_jobs_witness :
  iter_args Example.open_rt Example.json_load Example.make_args
    ["result.tsv.gz"; "plain.tsv.gz"] (range_Z 5 6) 3 ["-g"] true false
  = Gen [ ["likeligrid"; "-j3"; "-g"; "-e 0 1"; "--s=5"; "result.tsv.gz"];
          ["likeligrid"; "-j3"; "-g"; "-e 0 2"; "--s=5"; "result.tsv.gz"];
          ["likeligrid"; "-j3"; "-g"; "-e 1 2"; "--s=5"; "result.tsv.gz"];
          ["likeligrid"; "-j3"; "-g"; "-e 0 1"; "--s=5"; "plain.tsv.gz"] ]
        (Ok tt).
Proof.
  apply (iter_args_epistasis_jobs Example.open_rt Example.json_load
           Example.make_args ["result.tsv.gz"; "plain.tsv.gz"] [3; 2]
           (range_Z 5 6) 3 ["-g"] false).
  repeat constructor.
Defined.

Lemma count_pathways_tsv_header_only_witness :
  count_pathways_tsv_lines
    (["# likeligrid" +:+ Example.eol]
     ++ (join_tab ["loglik"; "Cycle"; "Damage"] +:+ Example.eol)
        :: [join_tab ["-12.5"; "1.0"; "1.0"] +:+ Example.eol])
  = count_pathways_tsv_lines [join_tab ["loglik"; "Cycle"; "Damage"]].
Proof.
  apply (count_pathways_tsv_header_only ["# likeligrid" +:+ Example.eol]
           [join_tab ["-12.5"; "1.0"; "1.0"] +:+ Example.eol]
           (join_tab ["loglik"; "Cycle"; "Damage"]) Example.eol).
  - repeat constructor.
  - vm_compute. discriminate.
  - reflexivity.
Defined.

Lemma count_pathways_tsv_two_fields_witness :
  count_pathways_tsv_lines Example.result_lines = Ok 3.
Proof.
  apply (count_pathways_tsv_two_fields ["# likeligrid" +:+ Example.eol]
           [join_tab ["-12.5"; "1.0"; "1.0"; "1.0"; "1.0"] +:+ Example.eol]
           (join_tab ["loglik"; "Cycle"; "Damage"; "Growth"; "Cycle:Damage"]
            +:+ Example.eol)
           ["loglik"; "Cycle"; "Damage"; "Growth"; "Cycle:Damage"]).
  - repeat constructor.
  - vm_compute. discriminate.
  - reflexivity.
  - cbn. lia.
Defined.

Lemma count_pathways_tsv_errors_witness :
  Example.open_rt "loglik.tsv.gz" = Raise IndexError
  ∨ IndexError = UnboundLocalError ∨ IndexError = IndexError.
Proof.
  apply (count_pathways_tsv_errors Example.open_rt "loglik.tsv.gz" IndexError).
  reflexivity.
Defined.


Lemma tp53_pair_other_documents_witness :
  tp53_pleiotropic_pair
    (λ _, Ok (JDict {[ "pathway" := JStr "Damage,Cycle" ]})) "genotype.json.gz"
  = Ok (7, 0).
Proof.
  refine (proj1 (proj2 (proj2 (proj2
            (tp53_pair_other_documents
               (λ _, Ok (JDict {[ "pathway" := JStr "Damage,Cycle" ]}))
               "genotype.json.gz" _ _))))
            {[ "pathway" := JStr "Damage,Cycle" ]} "Damage,Cycle" 7 0 _ _ _ _);
    reflexivity.
Defined.

Section BlankColumns.
Implicit Types (fields blanks : list string) (s t : string).

Lemma all_space_app s t : all_space (s +:+ t) = all_space s && all_space t.
Proof.
  induction s as [|c s IH]; [done|].
  rewrite string_app_cons. cbn [all_space]. by rewrite IH, andb_assoc.
Qed.

Lemma string_app_empty_r s : s +:+ "" = s.
Proof. induction s as [|c s IH]; [done|]. by rewrite string_app_cons, IH. Qed.

Lemma all_space_join_tab blanks :
  Forall (λ b, all_space b = true) blanks → all_space (join_tab blanks) = true.
Proof.
  unfold join_tab. induction 1 as [|b blanks Hb _ IH]; [done|].
  cbn [join]. destruct blanks; [done|].
  by rewrite !all_space_app, Hb, IH.
Qed.

(** A header followed by blank fields is the header followed by
    whitespace. *)
Lemma join_tab_app_blanks fields blanks :
  Forall (λ b, all_space b = true) blanks →
  ∃ ws, all_space ws = true ∧ join_tab (fields ++ blanks) = join_tab fields +:+ ws.
Proof.
  intros Hblanks. induction fields as [|x fields (ws & Hws & IH)].
  - exists (join_tab blanks). split; [by apply all_space_join_tab|done].
  - unfold join_tab in *. cbn [app join]. rewrite IH.
    destruct (fields ++ blanks) as [|y more] eqn:Heq.
    + apply app_eq_nil in Heq as [-> ->]. exists "".
      split; [done|]. by rewrite string_app_empty_r.
    + destruct fields as [|z fields].
      * exists (String tab "" +:+ ws). by split.
      * exists ws. split; [done|]. by rewrite !string_app_assoc.
Qed.

(** X14. Blank columns at the end of the header are not counted: a header
    that ends with fields made of whitespace only (or empty) gives the same
    result as the header without them, since [rstrip] removes them with the
    line end. *)
Theorem count_pathways_tsv_blank_columns (comments rest : list string)
    fields blanks (eol : string) :
  Forall is_comment comments → ¬ is_comment (join_tab fields) →
  Forall (λ b, all_space b = true) blanks → all_space eol = true →
  count_pathways_tsv_lines
    (comments ++ (join_tab (fields ++ blanks) +:+ eol) :: rest)
  = count_pathways_tsv_lines [join_tab fields].
Proof.
  intros Hc Hl Hblanks Heol.
  destruct (join_tab_app_blanks fields blanks Hblanks) as (ws & Hws & ->).
  rewrite string_app_assoc.
  assert (all_space (ws +:+ eol) = true) as Hend by by rewrite all_space_app, Hws.
  unfold count_pathways_tsv_lines.
  rewrite tsv_header_first; [|done|by rewrite is_comment_app_space].
  change [join_tab fields] with ([] ++ join_tab fields :: []).
  rewrite (tsv_header_first [] _ []); [|done|done].
  by rewrite rstrip_app_space.
Qed.
End BlankColumns.

Lemma count_pathways_tsv_blank_columns_witness :
  count_pathways_tsv_lines
    ([] ++ (join_tab (["loglik"; "Cycle"; "Damage"] ++ [""; " "]) +:+ Example.eol)
           :: [])
  = count_pathways_tsv_lines [join_tab ["loglik"; "Cycle"; "Damage"]].
Proof.
  apply (count_pathways_tsv_blank_columns [] [] ["loglik"; "Cycle"; "Damage"]
           [""; " "] Example.eol).
  - constructor.
  - vm_compute. discriminate.
  - repeat constructor.
  - reflexivity.
Defined.

Section ExhaustivePairs.
Context (gzip_open_rt : string → result (list string))
        (gzip_json_load : string → result json).

Lemma StronglySorted_map_strong {A B} (R1 : relation A) (R2 : relation B)
    (g : A → B) (l : list A) :
  (∀ x y, x ∈ l → y ∈ l → R1 x y → R2 (g x) (g y)) →
  StronglySorted R1 l → StronglySorted R2 (map g l).
Proof.
  intros Hg Hl. induction Hl as [|x l _ IH Hall]; cbn [map]; constructor.
  - apply IH. intros y z Hy Hz. by apply Hg; apply list_elem_of_further.
  - apply Forall_forall. intros z (y & -> & Hy)%list_elem_of_fmap.
    rewrite Forall_forall in Hall.
    apply Hg; [apply list_elem_of_here|by apply list_elem_of_further|by apply Hall].
Qed.

(** C2. The exhaustive-pair policy, the loop of epistasis mode over
    [itertools.combinations(range(npath), 2)] in [iter_args]: for a file of
    pathway count [k] the generator yields, without error, one job for each
    pair of a list of [k (k - 1) / 2] pairs, no pair twice, each pair
    [(i, j)] with [0 <= i < j < k], in lexicographic order of [(i, j)], the
    flag of the job being [-e i j]; every such pair is in the list. For
    [k < 2] it yields nothing and ends normally. *)
Theorem epistasis_exhaustive_pairs (const args : list string) (tp53 : bool)
    (f : string) (k : nat) :
  epistasis_npath gzip_open_rt gzip_json_load const f = Ok k →
  (∃ pairs : list (nat * nat),
     iter_file gzip_open_rt gzip_json_load const args true tp53 f
     = Gen (map (λ pair,
              const ++ ["-e " +:+ str_of_nat pair.1 +:+ " " +:+ str_of_nat pair.2]
              ++ args ++ [f]) pairs)
           (Ok tt)
     ∧ length pairs = k * (k - 1) / 2
     ∧ NoDup pairs
     ∧ Forall (λ pair, 0 ≤ pair.1 ∧ pair.1 < pair.2 ∧ pair.2 < k) pairs
     ∧ StronglySorted pair_lex_lt pairs
     ∧ (∀ i j, i < j < k → (i, j) ∈ pairs))
  ∧ (k < 2 →
     iter_file gzip_open_rt gzip_json_load const args true tp53 f
     = Gen [] (Ok tt)).
Proof.
  intros Hk. rewrite (iter_file_epistasis _ _ _ _ _ _ _ Hk), epistasis_jobs_map.
  destruct (exhaustive_pairs k) as (Hlen & Hnodup & Hall & Hsorted & Hcomplete & _).
  rewrite Forall_forall in Hall.
  set (to_pair := λ x : list nat,
         match x with [i; j] => (i, j) | _ => (0, 0) end).
  split.
  - exists (map to_pair (combinations (range k) 2)). split_and!.
    + f_equal. rewrite map_map. apply map_ext_in.
      intros x Hx%list_elem_of_In. by destruct (Hall x Hx) as (i & j & -> & _).
    + by rewrite length_map.
    + apply NoDup_fmap_2_strong; [|done]. intros x y Hx Hy.
      destruct (Hall x Hx) as (i & j & -> & _).
      destruct (Hall y Hy) as (i' & j' & -> & _). cbn. congruence.
    + apply Forall_forall. intros pair (x & -> & Hx)%list_elem_of_fmap.
      destruct (Hall x Hx) as (i & j & -> & ?). cbn. lia.
    + apply (StronglySorted_map_strong lex_lt); [|done]. intros x y Hx Hy.
      destruct (Hall x Hx) as (i & j & -> & _).
      destruct (Hall y Hy) as (i' & j' & -> & _).
      unfold pair_lex_lt. cbn. tauto.
    + intros i j Hij. apply list_elem_of_fmap. exists [i; j].
      split; [done|by apply Hcomplete].
  - intros Hlt. by destruct k as [|[|k]]; [..|lia].
Qed.
End ExhaustivePairs.

Lemma epistasis_exhaustive_pairs_witness :
  (∃ pairs : list (nat * nat),
     iter_file Example.open_rt Example.json_load
       (const_args 3 ["-g"]) ["--s=5"] true false "result.tsv.gz"
     = Gen (map (λ pair,
              const_args 3 ["-g"]
              ++ ["-e " +:+ str_of_nat pair.1 +:+ " " +:+ str_of_nat pair.2]
              ++ ["--s=5"] ++ ["result.tsv.gz"]) pairs)
           (Ok tt)
     ∧ length pairs = 3 * (3 - 1) / 2
     ∧ NoDup pairs
     ∧ Forall (λ pair, 0 ≤ pair.1 ∧ pair.1 < pair.2 ∧ pair.2 < 3) pairs
     ∧ StronglySorted pair_lex_lt pairs
     ∧ (∀ i j, i < j < 3 → (i, j) ∈ pairs))
  ∧ (3 < 2 →
     iter_file Example.open_rt Example.json_load
       (const_args 3 ["-g"]) ["--s=5"] true false "result.tsv.gz"
     = Gen [] (Ok tt)).
Proof.
  apply (epistasis_exhaustive_pairs Example.open_rt Example.json_load
           (const_args 3 ["-g"]) ["--s=5"] false "result.tsv.gz" 3).
  reflexivity.
Defined.
